(** * The Tomato scheduler plugin of aiida-aurora

    A shallow embedding of [aiida_aurora/scheduler.py]: the command
    builders and the output parsers of [TomatoScheduler], together with
    the part of Python's [str] and [re] behaviour they rely on.

    Python [str] values are modelled as [string]; each [ascii] stands for
    the code point of the same number, so the development covers the
    texts whose code points lie in 0..255.  On that range the character
    tables below ([isspace], the line boundaries, the decimal digits) are
    the ones of CPython 3. *)

From Stdlib Require Import Ascii String ZArith Lia.
From Stdlib Require QArith.
From stdpp Require Import base decidable option list gmap strings pretty.


(** ** Python built-ins used by the plugin *)

Module Py.

Definition code (c : ascii) : N := N_of_ascii c.

Definition LF : ascii := "010"%char.
Definition CR : ascii := "013"%char.

(** [str.isspace] on one character; also the class of [\s] in [re] and
    the separators of [str.split()] and [str.strip()]. *)
Definition isspace (c : ascii) : bool :=
  let n := code c in
  ((9 <=? n) && (n <=? 13) || (28 <=? n) && (n <=? 32)
   || (n =? 133) || (n =? 160))%N.

(** [str.isdecimal] on one character; the class of [\d] in [re]. *)
Definition isdecimal (c : ascii) : bool :=
  let n := code c in ((48 <=? n) && (n <=? 57))%N.

(** The characters at which [str.splitlines] cuts. *)
Definition is_linebreak (c : ascii) : bool :=
  let n := code c in
  ((10 <=? n) && (n <=? 13) || (28 <=? n) && (n <=? 30) || (n =? 133))%N.

(** Truth value of a [str]: [if s:]. *)
Definition truthy (s : string) : bool :=
  match s with EmptyString => false | String _ _ => true end.

Definition snoc (s : string) (c : ascii) : string := s +:+ String c "".

(** [s.splitlines()]: [cur] is the line being read. *)
Fixpoint splitlines_go (cur s : string) : list string :=
  match s with
  | EmptyString => if truthy cur then [cur] else []
  | String c s' =>
      if is_linebreak c then
        cur :: match s' with
               | String d s'' =>
                   if Ascii.eqb c CR && Ascii.eqb d LF
                   then splitlines_go "" s''
                   else splitlines_go "" s'
               | EmptyString => []
               end
      else splitlines_go (snoc cur c) s'
  end.
Definition splitlines (s : string) : list string := splitlines_go "" s.

(** [s.split()]: cut at runs of whitespace, no empty token. *)
Fixpoint split_go (cur s : string) : list string :=
  match s with
  | EmptyString => if truthy cur then [cur] else []
  | String c s' =>
      if isspace c then
        (if truthy cur then [cur] else []) ++ split_go "" s'
      else split_go (snoc cur c) s'
  end.
Definition split (s : string) : list string := split_go "" s.

(** [s.split(sep)] for a one-character separator: empty pieces kept,
    and the result is never the empty list. *)
Fixpoint split_on_go (sep : ascii) (cur s : string) : list string :=
  match s with
  | EmptyString => [cur]
  | String c s' =>
      if Ascii.eqb c sep then cur :: split_on_go sep "" s'
      else split_on_go sep (snoc cur c) s'
  end.
Definition split_on (sep : ascii) (s : string) : list string :=
  split_on_go sep "" s.

Fixpoint lstrip (s : string) : string :=
  match s with
  | EmptyString => ""
  | String c s' => if isspace c then lstrip s' else s
  end.

Fixpoint rstrip (s : string) : string :=
  match s with
  | EmptyString => ""
  | String c s' =>
      match rstrip s' with
      | EmptyString => if isspace c then "" else String c ""
      | r => String c r
      end
  end.

(** [s.strip()] *)
Definition strip (s : string) : string := rstrip (lstrip s).

Fixpoint startswith (p s : string) : bool :=
  match p, s with
  | EmptyString, _ => true
  | String a p', String b s' => Ascii.eqb a b && startswith p' s'
  | String _ _, EmptyString => false
  end.

(** [sub in s] *)
Fixpoint contains (sub s : string) : bool :=
  startswith sub s ||
  match s with
  | EmptyString => false
  | String _ s' => contains sub s'
  end.

(** [sep.join(l)] *)
Definition join (sep : string) (l : list string) : string :=
  String.concat sep l.

(** [s[n:]] and [s[:n]] for [0 <= n]. *)
Fixpoint drop (n : nat) (s : string) : string :=
  match n, s with
  | O, _ => s
  | S n', String _ s' => drop n' s'
  | S _, EmptyString => ""
  end.

Fixpoint take (n : nat) (s : string) : string :=
  match n, s with
  | S n', String c s' => String c (take n' s')
  | _, _ => ""
  end.

(** [s.replace(old, new)] for a one-character [old]. *)
Fixpoint replace_char (old : ascii) (new s : string) : string :=
  match s with
  | EmptyString => ""
  | String c s' =>
      (if Ascii.eqb c old then new else String c "")
      +:+ replace_char old new s'
  end.

(** [str(n)] for an [int]. *)
Definition str_of_int (n : Z) : string := pretty n.

End Py.

Definition nl : string := String Py.LF "".
Definition text (lines : list string) : string :=
  Py.join "" ((fun l => l +:+ nl) <$> lines).

(** ** The fragment of [re] the plugin uses

    A backtracking matcher in continuation-passing style, with the
    priorities of [re]: a greedy repetition first tries to take one more
    character, an optional group is first tried and then skipped.  The
    repetitions of the plugin's pattern are all over character classes. *)

Module Re.

Inductive regex : Type :=
| Lit (s : string)
| Star (p : ascii -> bool)
| Plus (p : ascii -> bool)
| Seq (r1 r2 : regex)
| Opt (r : regex)
| Group (name : string) (r : regex).

(** What [match.group] reads: the text of each group that took part. *)
Abbreviation groups := (gmap string string).

Section Matcher.
Context {A : Type}.

Fixpoint star (p : ascii -> bool) (s : string)
    (k : string -> option A) : option A :=
  match s with
  | String c s' =>
      if p c then
        match star p s' k with
        | Some a => Some a
        | None => k s
        end
      else k s
  | EmptyString => k s
  end.

Definition plus (p : ascii -> bool) (s : string)
    (k : string -> option A) : option A :=
  match s with
  | String c s' => if p c then star p s' k else None
  | EmptyString => None
  end.

Fixpoint run (r : regex) (s : string) (g : groups)
    (k : string -> groups -> option A) : option A :=
  match r with
  | Lit t =>
      if Py.startswith t s then k (Py.drop (String.length t) s) g
      else None
  | Star p => star p s (fun s' => k s' g)
  | Plus p => plus p s (fun s' => k s' g)
  | Seq r1 r2 => run r1 s g (fun s' g' => run r2 s' g' k)
  | Opt r' =>
      match run r' s g k with
      | Some a => Some a
      | None => k s g
      end
  | Group name r' =>
      run r' s g (fun s' g' =>
        k s' (<[name := Py.take (String.length s - String.length s') s]> g'))
  end.
End Matcher.

(** [.] without DOTALL *)
Definition dot (c : ascii) : bool := negb (Ascii.eqb c Py.LF).

(** [pattern.match(s)]: anchored at the start of [s], not at its end. *)
Definition match_ (r : regex) (s : string) : option groups :=
  run r s ∅ (fun _ g => Some g).

(** [m.group(name)]: [None] when the group took no part. *)
Definition group (m : groups) (name : string) : option string := m !! name.

End Re.

(** ** Exceptions and logging

    The plugin raises exceptions and writes to two loggers.  A
    computation is modelled by the records it logs, in order, and by its
    outcome: the exception that left it, or its value. *)

Inductive exn : Type :=
| SchedulerError (msg : string)
| FeatureNotAvailable (msg : string)
| ValueError (msg : string)
| TypeError (msg : string)
| IndexError (msg : string)
| KeyError (key : string).

Inductive level : Type := DEBUG | INFO | WARNING | ERROR.

(** [_LOGGER], the logger of the module, and [self.logger]. *)
Inductive logger : Type := module_logger | self_logger.

Record log_record : Type := LogRecord {
  log_to : logger;
  log_level : level;
  log_msg : string
}.

Definition M (A : Type) : Type := (list log_record * (exn + A))%type.

Definition outcome {A} (m : M A) : exn + A := m.2.
Definition logged {A} (m : M A) : list log_record := m.1.

#[global] Instance M_ret : MRet M := fun A a => ([], inr a).

#[global] Instance M_bind : MBind M := fun A B f m =>
  match m with
  | (l, inl e) => (l, inl e)
  | (l, inr a) => let '(l', r) := f a in (l ++ l', r)
  end.

Definition raise {A} (e : exn) : M A := ([], inl e).

Definition log (to : logger) (lv : level) (msg : string) : M unit :=
  ([LogRecord to lv msg], inr tt).

(** [if b: body] *)
Definition when (b : bool) (body : M unit) : M unit :=
  if b then body else mret tt.

(** [try: body / except KeyError: handler] *)
Definition except_KeyError {A} (body handler : M A) : M A :=
  match body with
  | (l, inl (KeyError _)) => let '(l', r) := handler in (l ++ l', r)
  | _ => body
  end.

(** [l[i]] on a list *)
Definition list_item {A} (l : list A) (i : nat) : M A :=
  match l !! i with
  | Some x => mret x
  | None => raise (IndexError "list index out of range")
  end.

(** [d[k]] on a dict *)
Definition dict_item {A} (d : gmap string A) (k : string) : M A :=
  match d !! k with
  | Some x => mret x
  | None => raise (KeyError k)
  end.

(** ** aiida-core: what the plugin imports *)

(** [aiida.schedulers.datastructures.JobState] *)
Inductive JobState : Type :=
| UNDETERMINED | QUEUED_HELD | QUEUED | RUNNING | SUSPENDED | DONE.

(** The fields of [aiida.schedulers.datastructures.JobInfo] that the
    plugin sets. *)
Record JobInfo : Type := mkJobInfo {
  job_id : string;
  job_state : JobState;
  pipeline : option string;
  raw_data : list string
}.

Definition squote : string := "'".
Definition dquote : string := String "034"%char "".

(** [aiida.common.escaping.escape_for_bash] with single quotes: every
    single quote of the text is closed, quoted and reopened, and the
    whole is put between single quotes. *)
Definition escape_for_bash (str_to_escape : string) : string :=
  let escaped_quotes :=
    Py.replace_char "'"%char (squote +:+ dquote +:+ squote +:+ dquote +:+ squote)
      str_to_escape in
  squote +:+ escaped_quotes +:+ squote.

(** ** aiida_aurora/scheduler.py *)

Definition _MAP_STATUS_TOMATO : gmap string JobState :=
  list_to_map [
    ("q", QUEUED);
    ("qw", QUEUED);
    ("r", RUNNING);
    ("c", DONE);
    ("ce", DONE);
    ("cd", DONE)
  ].

(** The compiled pattern: an optional first group (any text, a colon,
    any whitespace), a second group (the word jobid, whitespace, an equals
    sign), whitespace, and the group named jobid (decimal digits).  The
    pattern is compiled without flags. *)
Definition _TOMATO_SUBMITTED_REGEXP : Re.regex :=
  Re.Seq
    (Re.Opt (Re.Group "1"
       (Re.Seq (Re.Star Re.dot) (Re.Seq (Re.Lit ":") (Re.Star Py.isspace)))))
    (Re.Seq
       (Re.Group "2"
          (Re.Seq (Re.Lit "jobid") (Re.Seq (Re.Plus Py.isspace) (Re.Lit "="))))
       (Re.Seq (Re.Plus Py.isspace)
          (Re.Group "jobid" (Re.Plus Py.isdecimal)))).

(** The [jobs] argument of [_get_joblist_command]: [None], one [str], or
    a list of [str]. *)
Inductive jobs_arg : Type :=
| JobsNone
| JobsStr (s : string)
| JobsList (l : list string).

Definition jobs_truthy (jobs : jobs_arg) : bool :=
  match jobs with
  | JobsNone => false
  | JobsStr s => Py.truthy s
  | JobsList l => match l with [] => false | _ :: _ => true end
  end.

(** [len(jobs)]: the characters of a [str], the items of a list. *)
Definition jobs_len (jobs : jobs_arg) : nat :=
  match jobs with
  | JobsNone => 0
  | JobsStr s => String.length s
  | JobsList l => length l
  end.

Definition user_truthy (user : option string) : bool :=
  match user with
  | None => false
  | Some u => Py.truthy u
  end.

Definition _get_joblist_command (jobs : jobs_arg) (user : option string)
    : M string :=
  let command := ["ketchup"; "-t"; "status"] in
  when (user_truthy user) (raise (FeatureNotAvailable "Cannot query by user"));;
  command ←
    (if jobs_truthy jobs then
       when (bool_decide (1 < jobs_len jobs)%nat)
         (raise (FeatureNotAvailable
                   "ketchup status supports only one job per time"));;
       match jobs with
       | JobsStr s => mret (command ++ [escape_for_bash s])
       | JobsList l =>
           mret (command ++ [Py.join " " (escape_for_bash <$> l)])
       | JobsNone => mret command
       end
     else mret (command ++ ["queue"]));
  let comm := Py.join " " command in
  log module_logger DEBUG ("ketchup command: " +:+ comm);;
  mret comm.

Definition _get_detailed_job_info_command (job_id : string) : string :=
  "ketchup -t status " +:+ escape_for_bash job_id.

Definition _get_submit_command (submit_script : string) : M string :=
  let submit_command := "ketchup -t submit " +:+ submit_script in
  log module_logger INFO ("submitting with: " +:+ submit_command);;
  mret submit_command.

Definition _get_kill_command (jobid : string) : M string :=
  let kill_command := "ketchup -t cancel " +:+ jobid in
  log module_logger INFO
    ("killing job " +:+ jobid +:+ ": " +:+ kill_command);;
  mret kill_command.

(** The divider that the list comprehension looks for: 42 equals signs. *)
Definition divider : string :=
  "==========================================".

(** The condition of the list comprehension of [_parse_joblist_output]. *)
Definition keep_line (l : string) : bool :=
  Py.truthy l && negb (Py.contains "jobid" l) && negb (Py.contains divider l).

Definition jobdata_raw (stdout : string) : list (list string) :=
  Py.split <$> List.filter keep_line (Py.splitlines stdout).

(** The [try] block of the loop: the state of the row's second token. *)
Definition job_state_of (job : list string) (this_job_id : string)
    : M JobState :=
  except_KeyError
    (token ← list_item job 1; dict_item _MAP_STATUS_TOMATO token)
    (token ← list_item job 1;
     log self_logger WARNING
       ("Unrecognized job_state '" +:+ token +:+ "' for job id "
        +:+ this_job_id);;
     mret UNDETERMINED).

(** One turn of the loop over [jobdata_raw]. *)
Definition parse_job (job : list string) : M JobInfo :=
  this_job_id ← list_item job 0;
  this_job_state ← job_state_of job this_job_id;
  this_pipeline ←
    (if bool_decide (length job = 2%nat) then mret None
     else if bool_decide (length job = 3%nat) then
       p ← list_item job 2; mret (Some p)
     else raise (ValueError
                   "More than 3 columns returned by ketchup -t status queue"));
  mret (mkJobInfo this_job_id this_job_state this_pipeline job).

(** The loop: [job_list] is what has been appended so far. *)
Fixpoint parse_jobs (rows : list (list string)) (job_list : list JobInfo)
    : M (list JobInfo) :=
  match rows with
  | [] => mret job_list
  | job :: rows' =>
      this_job ← parse_job job;
      parse_jobs rows' (job_list ++ [this_job])
  end.

Definition _parse_joblist_output (retval : Z) (stdout stderr : string)
    : M (list JobInfo) :=
  when (bool_decide (retval ≠ 0%Z))
    (raise (SchedulerError
       ("kethup returned exit code " +:+ Py.str_of_int retval
        +:+ " (_parse_joblist_output function)"
        +:+ "stdout='" +:+ Py.strip stdout +:+ "'"
        +:+ "stderr='" +:+ Py.strip stderr +:+ "'")));;
  when (Py.truthy (Py.strip stderr))
    (log self_logger WARNING
       ("ketchup returned exit code 0 (_parse_joblist_output function) but non-empty stderr='"
        +:+ Py.strip stderr +:+ "'"));;
  parse_jobs (jobdata_raw stdout) [].

(** The loop of [_parse_submit_output] and the statements after it. *)
Fixpoint scan_submit_lines (lines : list string) (stdout : string)
    : M (option string) :=
  match lines with
  | [] =>
      log self_logger ERROR
        ("in _parse_submit_output: unable to find the job id: " +:+ stdout);;
      raise (SchedulerError
        "Error during submission, could not retrieve the jobID from ketchup output; see log for more info.")
  | line :: lines' =>
      match Re.match_ _TOMATO_SUBMITTED_REGEXP (Py.strip line) with
      | Some m => mret (Re.group m "jobid")
      | None => scan_submit_lines lines' stdout
      end
  end.

(** The text [retval=...; stdout=...; stderr=...] that the error messages
    of the submit and kill parsers share. *)
Definition retval_and_streams (retval : Z) (stdout stderr : string) : string :=
  "retval=" +:+ Py.str_of_int retval +:+ "; stdout=" +:+ stdout
  +:+ "; stderr=" +:+ stderr.

Definition _parse_submit_output (retval : Z) (stdout stderr : string)
    : M (option string) :=
  when (bool_decide (retval ≠ 0%Z))
    (log module_logger ERROR
       ("Error in _parse_submit_output: " +:+ retval_and_streams retval stdout stderr);;
     raise (SchedulerError
       ("Error during submission, " +:+ retval_and_streams retval stdout stderr)));;
  when (Py.truthy (Py.strip stderr))
    (log module_logger WARNING
       ("in _parse_submit_output there was some text in stderr: " +:+ stderr));;
  scan_submit_lines (Py.split_on Py.LF stdout) stdout.

Definition _parse_kill_output (retval : Z) (stdout stderr : string) : M bool :=
  if bool_decide (retval ≠ 0%Z) then
    log module_logger ERROR
      ("Error in _parse_kill_output: " +:+ retval_and_streams retval stdout stderr);;
    mret false
  else
    when (Py.truthy (Py.strip stderr))
      (log module_logger WARNING
         ("in _parse_kill_output there was some text in stderr: " +:+ stderr));;
    when (Py.truthy (Py.strip stdout))
      (log module_logger WARNING
         ("in _parse_kill_output there was some text in stdout: " +:+ stdout));;
    mret true.

(** ** aiida_aurora/utils/cycling_analysis.py

    [analyze_cycling_results] reads an array of capacities from [data].
    The arrays are one-dimensional numpy arrays: the division of line 16
    and the comparison of line 20 are elementwise.  The type of their
    elements and its arithmetic are parameters of the embedding.  The
    text that numpy gives to an array is not modelled: the two printed
    lines that hold an array are kept as the array. *)

Module Analysis.

Inductive printed (num : Type) : Type :=
| Capacities (Qs : list num)
| RelativeCapacities (rel : list num)
| Line (s : string).
Arguments Capacities {num} Qs.
Arguments RelativeCapacities {num} rel.
Arguments Line {num} s.

(** A computation that prints: what it printed, in order, and the
    exception that left it or its value. *)
Definition Out (num A : Type) : Type := (list (printed num) * (exn + A))%type.

#[local] Instance Out_ret {num} : MRet (Out num) := fun A a => ([], inr a).

#[local] Instance Out_bind {num} : MBind (Out num) := fun A B f m =>
  match m with
  | (l, inl e) => (l, inl e)
  | (l, inr a) => let '(l', r) := f a in (l ++ l', r)
  end.

Definition print {num} (x : printed num) : Out num unit := ([x], inr tt).

(** [d[k]] on a dict *)
Definition dict_get {num A} (d : gmap string A) (k : string) : Out num A :=
  match d !! k with
  | Some x => mret x
  | None => ([], inl (KeyError k))
  end.

(** [a[0]] on an array *)
Definition first_item {num} (a : list num) : Out num num :=
  match a with
  | x :: _ => mret x
  | [] => ([], inl (IndexError "index 0 is out of bounds for axis 0 with size 0"))
  end.

(** [for x in l: body] *)
Fixpoint for_each {num A} (l : list A) (body : A -> Out num unit)
    : Out num unit :=
  match l with
  | [] => mret tt
  | x :: l' => body x;; for_each l' body
  end.

(** [itertools.groupby] without key function on booleans: the maximal runs
    of equal items, each with its item. *)
Fixpoint groupby (l : list bool) : list (bool * list bool) :=
  match l with
  | [] => []
  | x :: l' =>
      match groupby l' with
      | (k, g) :: groups =>
          if Bool.eqb x k then (k, x :: g) :: groups
          else (x, [x]) :: (k, g) :: groups
      | [] => [(x, [x])]
      end
  end.

(** [[sum(1 for _ in g) for k, g in itertools.groupby(below_thresh) if k]] *)
Definition below_groups (below_thresh : list bool) : list nat :=
  omap (fun kg : bool * list bool =>
          if kg.1 then Some (length kg.2) else None)
       (groupby below_thresh).

Section Cycling.
Context {num : Type} (mul div : num -> num -> num) (ltb : num -> num -> bool).

Definition alarm (g : nat) : printed num :=
  Line ("Below threshold for " +:+ Py.str_of_int (Z.of_nat g) +:+ " cycles!").

Definition analyze_cycling_results (data : gmap string (list num))
    (consecutive_cycles : Z) (threshold : num) (discharge : bool)
    : Out num (gmap string (list num)) :=
  Qs ← (if discharge then dict_get data "Qd" else dict_get data "Qc");
  print (Capacities Qs);;
  Qs0 ← first_item Qs;
  print (RelativeCapacities ((fun q => div q Qs0) <$> Qs));;
  print (Line ("Completed " +:+ Py.str_of_int (Z.of_nat (length Qs))
               +:+ " cycles."));;
  (if bool_decide (consecutive_cycles + 1 ≤ Z.of_nat (length Qs))%Z then
     let below_thresh := (fun q => ltb q (mul threshold Qs0)) <$> Qs in
     for_each (below_groups below_thresh) (fun g =>
       if bool_decide (consecutive_cycles < Z.of_nat g)%Z
       then print (alarm g) else mret tt)
   else mret tt);;
  mret data.

(** The key that the analysis reads. *)
Definition capacity_key (discharge : bool) : string :=
  if discharge then "Qd" else "Qc".

(** The three lines printed before the runs are looked at. *)
Definition report_head (Qs : list num) (Qs0 : num) : list (printed num) :=
  [ Capacities Qs;
    RelativeCapacities ((fun q => div q Qs0) <$> Qs);
    Line ("Completed " +:+ Py.str_of_int (Z.of_nat (length Qs))
          +:+ " cycles.") ].

(** Whether a cycle is below the threshold, as line 20 computes it. *)
Definition below (threshold Qs0 q : num) : bool := ltb q (mul threshold Qs0).

End Cycling.

End Analysis.

(** ** Vocabulary of the statements *)

(** The six status tokens of tomato. *)
Definition known_tokens : list string := ["q"; "qw"; "r"; "c"; "ce"; "cd"].

(** The exceptions that the parsers raise with a fixed message. *)
Definition too_many_columns : exn :=
  ValueError "More than 3 columns returned by ketchup -t status queue".

Definition no_jobid_found : exn :=
  SchedulerError
    "Error during submission, could not retrieve the jobID from ketchup output; see log for more info.".

(** A line of the submission output that the pattern does not match. *)
Definition unmatched (line : string) : Prop :=
  Re.match_ _TOMATO_SUBMITTED_REGEXP (Py.strip line) = None.

(** [all(p(c) for c in w)] *)
Fixpoint all_chars (p : ascii -> bool) (w : string) : bool :=
  match w with
  | EmptyString => true
  | String c w' => p c && all_chars p w'
  end.

(** Whether the first character of [s] is in the class [p]. *)
Definition starts_in (p : ascii -> bool) (s : string) : bool :=
  match s with
  | String c _ => p c
  | EmptyString => false
  end.

(** The text that the second and third groups of the pattern match:
    [jobid], whitespace, an equals sign, whitespace, digits, and the rest
    of the line. *)
Definition jobid_text (ws1 ws2 ds rest : string) : string :=
  "jobid" +:+ ws1 +:+ "=" +:+ ws2 +:+ ds +:+ rest.

(** A row of two or three tokens. *)
Definition well_formed_row (job : list string) : Prop :=
  length job = 2%nat \/ length job = 3%nat.

(** The state that the table gives to a token, with the fallback of the
    [except] branch. *)
Definition state_of_token (token : string) : JobState :=
  default UNDETERMINED (_MAP_STATUS_TOMATO !! token).

(** The record that a row gives: its first token is the job id, its second
    token decides the state, its third token, if any, is the pipeline, and
    the row itself is kept. *)
Definition row_matches (job : list string) (info : JobInfo) : Prop :=
  job !! 0%nat = Some (job_id info)
  /\ (state_of_token <$> job !! 1%nat) = Some (job_state info)
  /\ pipeline info = job !! 2%nat
  /\ raw_data info = job.

(** The warning of the [except] branch for a row, if its token is not in
    the table. *)
Definition unknown_state_warning (job : list string) : list log_record :=
  match job !! 0%nat, job !! 1%nat with
  | Some this_job_id, Some token =>
      match _MAP_STATUS_TOMATO !! token with
      | Some _ => []
      | None =>
          [LogRecord self_logger WARNING
             ("Unrecognized job_state '" +:+ token +:+ "' for job id "
              +:+ this_job_id)]
      end
  | _, _ => []
  end.

(** The warning of [_parse_joblist_output] about a stderr that is not
    blank. *)
Definition joblist_stderr_warning (stderr : string) : list log_record :=
  if Py.truthy (Py.strip stderr) then
    [LogRecord self_logger WARNING
       ("ketchup returned exit code 0 (_parse_joblist_output function) but non-empty stderr='"
        +:+ Py.strip stderr +:+ "'")]
  else [].

(** The conditions on the pieces of [jobid_text]: whitespace on both
    sides of the equals sign, one digit or more, and the digits end where
    the rest begins. *)
Definition jobid_shape (ws1 ws2 ds rest : string) : Prop :=
  (ws1 ≠ "" /\ all_chars Py.isspace ws1 = true)
  /\ (ws2 ≠ "" /\ all_chars Py.isspace ws2 = true)
  /\ (ds ≠ "" /\ all_chars Py.isdecimal ds = true)
  /\ starts_in Py.isdecimal rest = false.

(** What may come before [jobid] in a matched line: nothing, or text
    without line feed, a colon and whitespace. *)
Definition jobid_prefix (pre : string) : Prop :=
  pre = ""
  \/ exists pfx ws0,
       pre = pfx +:+ ":" +:+ ws0
       /\ all_chars Re.dot pfx = true /\ all_chars Py.isspace ws0 = true.

(** The warning of [_parse_submit_output] about a stderr that is not
    blank, and its error record about a stdout without job id. *)
Definition submit_stderr_warning (stderr : string) : list log_record :=
  if Py.truthy (Py.strip stderr) then
    [LogRecord module_logger WARNING
       ("in _parse_submit_output there was some text in stderr: " +:+ stderr)]
  else [].

Definition submit_no_jobid_record (stdout : string) : log_record :=
  LogRecord self_logger ERROR
    ("in _parse_submit_output: unable to find the job id: " +:+ stdout).

(** Rational numbers as capacities, for the examples of the analysis. *)
Definition frac (n : Z) (d : positive) : QArith_base.Q :=
  QArith_base.Qmake n d.
Definition Qmul : QArith_base.Q -> QArith_base.Q -> QArith_base.Q :=
  QArith_base.Qmult.
Definition Qdiv : QArith_base.Q -> QArith_base.Q -> QArith_base.Q :=
  QArith_base.Qdiv.
Definition Qltb (a b : QArith_base.Q) : bool :=
  match QArith_base.Qcompare a b with
  | Lt => true
  | _ => false
  end.

(** * Properties *)

(** ** The monad *)

Lemma outcome_bind {A B} (m : M A) (f : A -> M B) :
  outcome (m ≫= f) =
  match outcome m with
  | inl e => inl e
  | inr a => outcome (f a)
  end.
Proof.
  destruct m as [l [e|a]]; cbn; [reflexivity|].
  destruct (f a) as [l' r]; reflexivity.
Qed.

Lemma outcome_ret {A} (a : A) : outcome (mret a) = inr a.
Proof. reflexivity. Qed.

Lemma outcome_log to lv msg : outcome (log to lv msg) = inr tt.
Proof. reflexivity. Qed.

Lemma outcome_when_raise b e :
  outcome (when b (raise e)) = if b then inl e else inr tt.
Proof. destruct b; reflexivity. Qed.

Lemma outcome_when_log b to lv msg : outcome (when b (log to lv msg)) = inr tt.
Proof. destruct b; reflexivity. Qed.

Lemma outcome_list_item {A} (l : list A) i :
  outcome (list_item l i) =
  match l !! i with
  | Some x => inr x
  | None => inl (IndexError "list index out of range")
  end.
Proof. unfold list_item. destruct (l !! i); reflexivity. Qed.

Lemma outcome_dict_item {A} (d : gmap string A) k :
  outcome (dict_item d k) =
  match d !! k with
  | Some x => inr x
  | None => inl (KeyError k)
  end.
Proof. unfold dict_item. destruct (d !! k); reflexivity. Qed.

Lemma outcome_except_KeyError {A} (body handler : M A) :
  outcome (except_KeyError body handler) =
  match outcome body with
  | inl (KeyError _) => outcome handler
  | r => r
  end.
Proof.
  destruct body as [l [[]|a]]; try reflexivity.
  cbn. destruct handler; reflexivity.
Qed.

(** ** Python strings *)

Example splitlines_keeps_inner_blank :
  Py.splitlines (text ["a"; ""; "b c"]) = ["a"; ""; "b c"].
Proof. reflexivity. Qed.

Example splitlines_crlf :
  Py.splitlines ("a" +:+ String Py.CR nl +:+ "b" +:+ String Py.CR "c")
  = ["a"; "b"; "c"].
Proof. reflexivity. Qed.

Example split_drops_blanks : Py.split ("  a  b " +:+ nl) = ["a"; "b"].
Proof. reflexivity. Qed.

Example split_on_keeps_last :
  Py.split_on Py.LF (text ["a"; "b"]) = ["a"; "b"; ""].
Proof. reflexivity. Qed.

Example strip_both_ends : Py.strip ("  a  b " +:+ nl) = "a  b".
Proof. reflexivity. Qed.

Lemma truthy_true s : Py.truthy s = true <-> s ≠ "".
Proof. destruct s; cbn; split; congruence. Qed.

Lemma snoc_nonempty s c : Py.snoc s c ≠ "".
Proof. destruct s; discriminate. Qed.

(** No token of [split] is empty. *)
Lemma split_go_nonempty s : forall cur,
  Forall (fun t => t ≠ "") (Py.split_go cur s).
Proof.
  induction s as [|c s IH]; intros cur; cbn.
  - destruct (Py.truthy cur) eqn:E; constructor; [|constructor].
    by apply truthy_true.
  - destruct (Py.isspace c); [|apply IH].
    apply Forall_app; split; [|apply IH].
    destruct (Py.truthy cur) eqn:E; constructor; [|constructor].
    by apply truthy_true.
Qed.

Lemma split_nonempty s : Forall (fun t => t ≠ "") (Py.split s).
Proof. apply split_go_nonempty. Qed.

Lemma app_cons c s t : String c s +:+ t = String c (s +:+ t).
Proof. reflexivity. Qed.

Lemma app_empty s : "" +:+ s = s.
Proof. reflexivity. Qed.

Lemma startswith_app p s : Py.startswith p (p +:+ s) = true.
Proof.
  induction p as [|a p IH]; [reflexivity|].
  rewrite app_cons. cbn. by rewrite Ascii.eqb_refl.
Qed.

Lemma contains_app_r sub a b :
  Py.contains sub b = true -> Py.contains sub (a +:+ b) = true.
Proof.
  intros H. induction a as [|c a IH]; [exact H|].
  rewrite app_cons. cbn. rewrite IH. apply orb_true_r.
Qed.

Lemma contains_startswith sub s :
  Py.startswith sub s = true -> Py.contains sub s = true.
Proof. intros H. destruct s; cbn; by rewrite H. Qed.

Lemma contains_infix sub a b : Py.contains sub (a +:+ sub +:+ b) = true.
Proof. apply contains_app_r, contains_startswith, startswith_app. Qed.

(** ** The status table and the [try] block *)

Lemma map_status_unknown token :
  token ∉ known_tokens -> _MAP_STATUS_TOMATO !! token = None.
Proof.
  intros H. unfold _MAP_STATUS_TOMATO.
  rewrite !list_to_map_cons, list_to_map_nil. cbn [fst snd].
  rewrite !lookup_insert_ne; [apply lookup_empty|..];
    intros <-; apply H; unfold known_tokens; set_solver.
Qed.

Lemma job_state_of_known job this_job_id token st :
  job !! 1%nat = Some token ->
  _MAP_STATUS_TOMATO !! token = Some st ->
  outcome (job_state_of job this_job_id) = inr st.
Proof.
  intros Hj Hm. unfold job_state_of.
  rewrite outcome_except_KeyError, outcome_bind, outcome_list_item, Hj.
  by rewrite outcome_dict_item, Hm.
Qed.

Lemma job_state_of_unknown job this_job_id token :
  job !! 1%nat = Some token ->
  _MAP_STATUS_TOMATO !! token = None ->
  outcome (job_state_of job this_job_id) = inr UNDETERMINED.
Proof.
  intros Hj Hm. unfold job_state_of.
  rewrite outcome_except_KeyError, !outcome_bind, !outcome_list_item, Hj.
  rewrite outcome_dict_item, Hm.
  by rewrite outcome_bind, outcome_log.
Qed.

Lemma job_state_of_short job this_job_id :
  job !! 1%nat = None ->
  outcome (job_state_of job this_job_id) =
  inl (IndexError "list index out of range").
Proof.
  intros Hj. unfold job_state_of.
  by rewrite outcome_except_KeyError, outcome_bind, outcome_list_item, Hj.
Qed.

Lemma job_state_of_total job this_job_id token :
  job !! 1%nat = Some token ->
  exists st, outcome (job_state_of job this_job_id) = inr st.
Proof.
  intros Hj. destruct (_MAP_STATUS_TOMATO !! token) as [st|] eqn:Hm.
  - exists st. by eapply job_state_of_known.
  - exists UNDETERMINED. by eapply job_state_of_unknown.
Qed.

(** ** One row of the job list *)

Lemma parse_job_inr job info :
  outcome (parse_job job) = inr info ->
  job !! 0%nat = Some (job_id info) /\ raw_data info = job.
Proof.
  unfold parse_job. rewrite outcome_bind, outcome_list_item.
  destruct (job !! 0%nat) as [i|]; [|discriminate].
  rewrite outcome_bind. destruct (outcome (job_state_of job i)); [discriminate|].
  rewrite outcome_bind.
  match goal with |- context [outcome ?m] => destruct (outcome m) end;
    [discriminate|].
  rewrite outcome_ret. intros [= <-]. done.
Qed.

Lemma parse_job_two_or_three job :
  length job = 2%nat \/ length job = 3%nat ->
  exists info, outcome (parse_job job) = inr info.
Proof.
  intros Hlen.
  destruct job as [|a [|b [|c [|d job]]]]; cbn in Hlen; try lia.
  - destruct (job_state_of_total [a; b] a b eq_refl) as [st Hst].
    exists (mkJobInfo a st None [a; b]).
    unfold parse_job. rewrite outcome_bind, outcome_list_item. cbn [lookup list_lookup].
    rewrite outcome_bind, Hst. reflexivity.
  - destruct (job_state_of_total [a; b; c] a b eq_refl) as [st Hst].
    exists (mkJobInfo a st (Some c) [a; b; c]).
    unfold parse_job. rewrite outcome_bind, outcome_list_item. cbn [lookup list_lookup].
    rewrite outcome_bind, Hst. reflexivity.
Qed.

Lemma parse_job_four_or_more job :
  (4 <= length job)%nat -> outcome (parse_job job) = inl too_many_columns.
Proof.
  intros Hlen.
  destruct job as [|a [|b [|c [|d job]]]]; cbn in Hlen; try lia.
  destruct (job_state_of_total (a :: b :: c :: d :: job) a b eq_refl)
    as [st Hst].
  unfold parse_job. rewrite outcome_bind, outcome_list_item. cbn [lookup list_lookup].
  rewrite outcome_bind, Hst. reflexivity.
Qed.

(** ** The loop over the rows *)

Lemma parse_jobs_stops rows : forall job_list pre job post e,
  rows = pre ++ job :: post ->
  Forall (fun j => exists info, outcome (parse_job j) = inr info) pre ->
  outcome (parse_job job) = inl e ->
  outcome (parse_jobs rows job_list) = inl e.
Proof.
  intros job_list pre. revert rows job_list.
  induction pre as [|p pre IH]; intros rows job_list job post e -> Hpre Hjob.
  - cbn. by rewrite outcome_bind, Hjob.
  - apply Forall_cons in Hpre as [[info Hp] Hpre].
    cbn. rewrite outcome_bind, Hp. by eapply IH.
Qed.

Lemma parse_jobs_invariant (P : JobInfo -> Prop) rows : forall job_list jobs,
  (forall job info, job ∈ rows -> outcome (parse_job job) = inr info -> P info) ->
  Forall P job_list ->
  outcome (parse_jobs rows job_list) = inr jobs ->
  Forall P jobs.
Proof.
  induction rows as [|job rows IH]; intros job_list jobs Hrows Hacc.
  - cbn. by intros [= <-].
  - cbn. rewrite outcome_bind.
    destruct (outcome (parse_job job)) as [e|info] eqn:Hjob; [discriminate|].
    apply IH.
    + intros j i Hin. apply Hrows. by right.
    + apply Forall_app; split; [done|]. constructor; [|constructor].
      eapply Hrows; [left|done].
Qed.

(** The loop appends one record per row, in the order of the rows. *)
Lemma parse_jobs_rows rows : forall job_list jobs,
  outcome (parse_jobs rows job_list) = inr jobs ->
  raw_data <$> jobs = (raw_data <$> job_list) ++ rows.
Proof.
  induction rows as [|job rows IH]; intros job_list jobs.
  - cbn. intros [= <-]. by rewrite app_nil_r.
  - cbn. rewrite outcome_bind.
    destruct (outcome (parse_job job)) as [e|info] eqn:Hjob; [discriminate|].
    intros H%IH. apply parse_job_inr in Hjob as [_ Hraw].
    by rewrite H, fmap_app, <- app_assoc, <- Hraw.
Qed.

Lemma outcome_parse_joblist retval stdout stderr :
  outcome (_parse_joblist_output retval stdout stderr) =
  if bool_decide (retval ≠ 0%Z) then
    inl (SchedulerError
       ("kethup returned exit code " +:+ Py.str_of_int retval
        +:+ " (_parse_joblist_output function)"
        +:+ "stdout='" +:+ Py.strip stdout +:+ "'"
        +:+ "stderr='" +:+ Py.strip stderr +:+ "'"))
  else outcome (parse_jobs (jobdata_raw stdout) []).
Proof.
  unfold _parse_joblist_output.
  rewrite outcome_bind, outcome_when_raise.
  destruct (bool_decide (retval ≠ 0%Z)); [reflexivity|].
  by rewrite outcome_bind, outcome_when_log.
Qed.

(** ** The job list *)

(** C1 (as amended). With a divider of 42 equals signs, the standard output
    made of the header [jobid status pipeline], the divider, [7 r pipelineA]
    and [8 c] is parsed, at exit code 0 and empty stderr, into exactly two
    records in input order: job 7, RUNNING, pipeline pipelineA, and job 8,
    DONE, no pipeline.  Every line that contains [jobid] and every line that
    contains the 42 equals signs is discarded, and on every input the
    records returned are those of the kept lines, one each and in their
    order. *)
Theorem joblist_scenario_long_divider :
  outcome (_parse_joblist_output 0
             (text ["jobid status pipeline"; divider; "7 r pipelineA"; "8 c"])
             "")
  = inr [ mkJobInfo "7" RUNNING (Some "pipelineA") ["7"; "r"; "pipelineA"];
          mkJobInfo "8" DONE None ["8"; "c"] ]
  /\ (forall a b, keep_line (a +:+ "jobid" +:+ b) = false)
  /\ (forall a b, keep_line (a +:+ divider +:+ b) = false)
  /\ (forall retval stdout stderr jobs,
       outcome (_parse_joblist_output retval stdout stderr) = inr jobs ->
       raw_data <$> jobs
       = Py.split <$> List.filter keep_line (Py.splitlines stdout)).
Proof.
  split; [vm_compute; reflexivity|].
  split; [|split].
  - intros a b; unfold keep_line; rewrite contains_infix; cbn [negb];
      by rewrite ?andb_false_r.
  - intros a b; unfold keep_line; rewrite contains_infix; cbn [negb];
      by rewrite ?andb_false_r.
  - intros retval stdout stderr jobs. rewrite outcome_parse_joblist.
    destruct (bool_decide (retval ≠ 0%Z)); [discriminate|].
    by intros H%parse_jobs_rows.
Qed.

Lemma joblist_scenario_long_divider_witness :
  raw_data <$> [ mkJobInfo "7" UNDETERMINED None ["7"; "held"] ]
  = Py.split <$> List.filter keep_line
                   (Py.splitlines (text ["jobid status"; ""; "7 held"])).
Proof.
  apply (proj2 (proj2 (proj2 joblist_scenario_long_divider))
           0%Z (text ["jobid status"; ""; "7 held"]) "").
  vm_compute; reflexivity.
Defined.

(** C1, the input of the claim: a divider of three equals signs is kept as a
    row of one token, and reading its status raises IndexError; no record
    is returned. *)
Lemma joblist_scenario_short_divider :
  outcome (_parse_joblist_output 0
             (text ["jobid status pipeline"; "==="; "7 r pipelineA"; "8 c"])
             "")
  = inl (IndexError "list index out of range")
  /\ outcome (_parse_joblist_output 0
             (text ["jobid status pipeline"; "==="; "7 r pipelineA"; "8 c"])
             "")
  ≠ inr [ mkJobInfo "7" RUNNING (Some "pipelineA") ["7"; "r"; "pipelineA"];
          mkJobInfo "8" DONE None ["8"; "c"] ].
Proof. split; [vm_compute; reflexivity | vm_compute; discriminate]. Qed.

(** C3 (as amended). At exit code 0, when the kept lines of stdout, read in
    order, have two or three tokens each up to a first line of four or more
    tokens, the parser raises ValueError with the fixed message
    [More than 3 columns returned by ketchup -t status queue], whatever the
    line is, and returns no record. *)
Theorem joblist_four_columns_ValueError stdout stderr pre job post :
  jobdata_raw stdout = pre ++ job :: post ->
  Forall (fun j => length j = 2%nat \/ length j = 3%nat) pre ->
  (4 <= length job)%nat ->
  outcome (_parse_joblist_output 0 stdout stderr) =
  inl (ValueError "More than 3 columns returned by ketchup -t status queue").
Proof.
  intros Hrows Hpre Hjob.
  rewrite outcome_parse_joblist. cbn [bool_decide decide_rel].
  rewrite bool_decide_eq_false_2 by (intros H; by apply H).
  eapply parse_jobs_stops; [exact Hrows| |by apply parse_job_four_or_more].
  eapply Forall_impl; [exact Hpre|]. apply parse_job_two_or_three.
Qed.

Lemma joblist_four_columns_ValueError_witness :
  outcome (_parse_joblist_output 0 (text ["7 r pipelineA"; "8 c p extra"]) "")
  = inl (ValueError "More than 3 columns returned by ketchup -t status queue").
Proof.
  apply (joblist_four_columns_ValueError _ _
           [["7"; "r"; "pipelineA"]] ["8"; "c"; "p"; "extra"] []).
  - vm_compute; reflexivity.
  - constructor; [right; reflexivity | constructor].
  - cbn; lia.
Defined.

(** C3, inputs of the claim: a line of one token raises IndexError, not the
    error for malformed rows; and the message raised for a line of four
    tokens does not contain that line. *)
Lemma joblist_malformed_line_errors :
  outcome (_parse_joblist_output 0 (text ["7"]) "")
  = inl (IndexError "list index out of range")
  /\ outcome (_parse_joblist_output 0 (text ["1 2 3 4"]) "")
     = inl (ValueError "More than 3 columns returned by ketchup -t status queue")
  /\ Py.contains "1 2 3 4"
       "More than 3 columns returned by ketchup -t status queue" = false.
Proof. repeat split; vm_compute; reflexivity. Qed.

(** C5. The status of a row is a function of its second token alone: q and
    qw give QUEUED, r gives RUNNING, c, ce and cd give DONE, every other
    token gives UNDETERMINED, and in no case is an exception raised. *)
Theorem status_mapping_total job this_job_id token :
  job !! 1%nat = Some token ->
  (token = "q" \/ token = "qw" ->
     outcome (job_state_of job this_job_id) = inr QUEUED)
  /\ (token = "r" -> outcome (job_state_of job this_job_id) = inr RUNNING)
  /\ (token = "c" \/ token = "ce" \/ token = "cd" ->
     outcome (job_state_of job this_job_id) = inr DONE)
  /\ (token ∉ ["q"; "qw"; "r"; "c"; "ce"; "cd"] ->
     outcome (job_state_of job this_job_id) = inr UNDETERMINED)
  /\ (exists st, outcome (job_state_of job this_job_id) = inr st).
Proof.
  intros Hj. repeat split.
  - intros [-> | ->]; by eapply job_state_of_known.
  - intros ->; by eapply job_state_of_known.
  - intros [-> | [-> | ->]]; by eapply job_state_of_known.
  - intros Hn. eapply job_state_of_unknown; [done|].
    by apply map_status_unknown.
  - by eapply job_state_of_total.
Qed.

Lemma status_mapping_total_witness :
  outcome (job_state_of ["7"; "qw"; "pipelineA"] "7") = inr QUEUED
  /\ outcome (job_state_of ["8"; "paused"] "8") = inr UNDETERMINED.
Proof.
  split.
  - apply (proj1 (status_mapping_total ["7"; "qw"; "pipelineA"] "7" "qw"
                      eq_refl)).
    right; reflexivity.
  - apply (proj1 (proj2 (proj2 (proj2
             (status_mapping_total ["8"; "paused"] "8" "paused" eq_refl))))).
    unfold not; intros H; vm_compute in H.
    repeat (apply elem_of_cons in H as [H|H]; [discriminate|]).
    by apply elem_of_nil in H.
Defined.

(** C9. Every record that the parser returns, on any exit code, stdout and
    stderr, has a job id that is not the empty string. *)
Theorem joblist_job_id_nonempty retval stdout stderr jobs :
  outcome (_parse_joblist_output retval stdout stderr) = inr jobs ->
  Forall (fun info => job_id info ≠ "") jobs.
Proof.
  rewrite outcome_parse_joblist.
  destruct (bool_decide (retval ≠ 0%Z)); [discriminate|].
  apply parse_jobs_invariant; [|constructor].
  intros job info Hin Hjob.
  apply parse_job_inr in Hjob as [H0 _].
  unfold jobdata_raw in Hin.
  apply list_elem_of_fmap in Hin as (l & -> & _).
  pose proof (split_nonempty l) as Hne.
  rewrite Forall_forall in Hne. apply Hne.
  eapply list_elem_of_lookup_2; exact H0.
Qed.

Lemma joblist_job_id_nonempty_witness :
  Forall (fun info => job_id info ≠ "")
    [ mkJobInfo "7" RUNNING (Some "pipelineA") ["7"; "r"; "pipelineA"];
      mkJobInfo "8" DONE None ["8"; "c"] ].
Proof.
  apply (joblist_job_id_nonempty 0
           (text ["jobid status pipeline"; divider; "7 r pipelineA"; "8 c"]) "").
  vm_compute; reflexivity.
Defined.

(** ** The matcher *)

Section MatcherFacts.
Context {A : Type}.
Implicit Types (k : string -> option A) (p : ascii -> bool).

(** A successful repetition took a run of the class and went on with the
    rest. *)
Lemma star_inv p s : forall k a,
  Re.star p s k = Some a ->
  exists w s', s = w +:+ s' /\ all_chars p w = true /\ k s' = Some a.
Proof.
  induction s as [|c s IH]; intros k a; cbn.
  - intros H. by exists "", "".
  - destruct (p c) eqn:Hc; [|intros H; by exists "", (String c s)].
    destruct (Re.star p s k) as [a'|] eqn:Hs.
    + intros [= ->]. destruct (IH _ _ Hs) as (w & s' & -> & Hw & Hk).
      exists (String c w), s'. cbn. by rewrite Hc, Hw.
    + intros H. by exists "", (String c s).
Qed.

Lemma plus_inv p s k a :
  Re.plus p s k = Some a ->
  exists w s',
    s = w +:+ s' /\ w ≠ "" /\ all_chars p w = true /\ k s' = Some a.
Proof.
  destruct s as [|c s]; cbn; [discriminate|].
  destruct (p c) eqn:Hc; [|discriminate].
  intros (w & s' & -> & Hw & Hk)%star_inv.
  exists (String c w), s'. cbn. by rewrite Hc, Hw.
Qed.

(** Every success of [run] is a success of its continuation. *)
Lemma run_inv (r : Re.regex) :
  forall s g (k : string -> Re.groups -> option A) a,
  Re.run r s g k = Some a -> exists s' g', k s' g' = Some a.
Proof.
  induction r as [t|p|p|r1 IH1 r2 IH2|r IH|name r IH]; intros s g k a; cbn.
  - destruct (Py.startswith t s); [eauto|discriminate].
  - intros (w & s' & _ & _ & H)%star_inv. eauto.
  - intros (w & s' & _ & _ & _ & H)%plus_inv. eauto.
  - intros (s1 & g1 & H)%IH1. eauto.
  - destruct (Re.run r s g k) as [a'|] eqn:Hr; [|eauto].
    intros [= ->]. eauto.
  - intros (s1 & g1 & H)%IH. eauto.
Qed.

End MatcherFacts.

Lemma length_app_string (w s : string) :
  String.length (w +:+ s) = (String.length w + String.length s)%nat.
Proof. induction w as [|c w IH]; [reflexivity|]. rewrite app_cons. cbn. by rewrite IH. Qed.

Lemma take_app_string (w s : string) :
  Py.take (String.length (w +:+ s) - String.length s) (w +:+ s) = w.
Proof.
  rewrite length_app_string.
  replace (String.length w + String.length s - String.length s)%nat
    with (String.length w) by lia.
  induction w as [|c w IH]; [by destruct s|].
  rewrite app_cons. cbn. by rewrite IH.
Qed.

(** What the pattern captures as [jobid] is a run of one or more decimal
    digits. *)
Lemma submitted_regexp_jobid s m :
  Re.match_ _TOMATO_SUBMITTED_REGEXP s = Some m ->
  exists ds,
    Re.group m "jobid" = Some ds /\ ds ≠ "" /\ all_chars Py.isdecimal ds = true.
Proof.
  unfold Re.match_, _TOMATO_SUBMITTED_REGEXP.
  match goal with
  | |- Re.run (Re.Seq ?r1 (Re.Seq ?r2 _)) _ _ _ = _ -> _ =>
      generalize r1, r2
  end.
  intros r1 r2. cbn [Re.run].
  intros (s1 & g1 & H)%run_inv.
  apply run_inv in H as (s2 & g2 & H).
  apply plus_inv in H as (_ & s3 & _ & _ & _ & H).
  apply plus_inv in H as (ds & s4 & -> & Hne & Hds & [= <-]).
  exists ds. split; [|done].
  unfold Re.group. by rewrite lookup_insert_eq, take_app_string.
Qed.

(** ** Lines that the pattern matches *)

Section Greedy.
Context {A : Type}.
Implicit Types (k : string -> option A) (p : ascii -> bool).

(** A repetition takes a whole run of its class when what follows the run
    lets the match go on. *)
Lemma star_greedy p w r k a :
  all_chars p w = true -> starts_in p r = false ->
  k r = Some a -> Re.star p (w +:+ r) k = Some a.
Proof.
  intros Hw Hr Hk. induction w as [|c w IH].
  - rewrite app_empty. destruct r as [|d r]; cbn in *; [done|].
    by rewrite Hr.
  - cbn in Hw. apply andb_true_iff in Hw as [Hc Hw].
    rewrite app_cons. cbn. by rewrite Hc, IH.
Qed.

Lemma plus_greedy p w r k a :
  w ≠ "" -> all_chars p w = true -> starts_in p r = false ->
  k r = Some a -> Re.plus p (w +:+ r) k = Some a.
Proof.
  intros Hne Hw Hr Hk. destruct w as [|c w]; [done|].
  cbn in Hw. apply andb_true_iff in Hw as [Hc Hw].
  rewrite app_cons. cbn. rewrite Hc. by apply star_greedy.
Qed.

(** A repetition fails when what follows fails wherever it stops. *)
Lemma star_fail p s : forall k,
  (forall w s', s = w +:+ s' -> k s' = None) -> Re.star p s k = None.
Proof.
  induction s as [|c s IH]; intros k Hk; cbn.
  - by apply (Hk "" "").
  - rewrite IH.
    + destruct (p c); by apply (Hk "" (String c s)).
    + intros w s' ->. by apply (Hk (String c w) s').
Qed.

(** A repetition gives back what it took beyond the last place where the
    match can go on. *)
Lemma star_backtrack p u v k a :
  all_chars p u = true ->
  k v = Some a ->
  (forall w s', v = w +:+ s' -> w ≠ "" -> k s' = None) ->
  Re.star p (u +:+ v) k = Some a.
Proof.
  intros Hu Hk Hlater. induction u as [|c u IH].
  - rewrite app_empty. destruct v as [|d v]; cbn; [done|].
    rewrite star_fail; [by destruct (p d)|].
    intros w s' ->. by apply (Hlater (String d w) s').
  - cbn in Hu. apply andb_true_iff in Hu as [Hc Hu].
    rewrite app_cons. cbn. by rewrite Hc, IH.
Qed.

End Greedy.

Lemma app_assoc_string (a b c : string) : (a +:+ b) +:+ c = a +:+ b +:+ c.
Proof. induction a as [|x a IH]; [done|]. by rewrite !app_cons, IH. Qed.

Lemma drop_app_string (p s : string) : Py.drop (String.length p) (p +:+ s) = s.
Proof. induction p as [|c p IH]; [by destruct s|]. by rewrite app_cons. Qed.

Lemma contains_suffix_false sub w s :
  Py.contains sub (w +:+ s) = false -> Py.startswith sub s = false.
Proof.
  intros H. destruct (Py.startswith sub s) eqn:E; [|done].
  by rewrite (contains_app_r sub w s (contains_startswith _ _ E)) in H.
Qed.

Lemma decimal_not_space c : Py.isdecimal c = true -> Py.isspace c = false.
Proof. destruct c as [[] [] [] [] [] [] [] []]; vm_compute; congruence. Qed.

Lemma starts_in_app p q (w r : string) :
  w ≠ "" -> all_chars p w = true ->
  (forall c, p c = true -> q c = false) ->
  starts_in q (w +:+ r) = false.
Proof.
  intros Hne Hw Hpq. destruct w as [|c w]; [done|].
  cbn in Hw. apply andb_true_iff in Hw as [Hc _]. by apply Hpq.
Qed.

Section Shapes.
Variables (ws1 ws2 ds rest : string).
Hypothesis (Hws1 : ws1 ≠ "" /\ all_chars Py.isspace ws1 = true).
Hypothesis (Hws2 : ws2 ≠ "" /\ all_chars Py.isspace ws2 = true).
Hypothesis (Hds : ds ≠ "" /\ all_chars Py.isdecimal ds = true).
Hypothesis (Hrest : starts_in Py.isdecimal rest = false).

Lemma jobid_text_matched g :
  exists g',
    Re.run (Re.Seq
       (Re.Group "2"
          (Re.Seq (Re.Lit "jobid") (Re.Seq (Re.Plus Py.isspace) (Re.Lit "="))))
       (Re.Seq (Re.Plus Py.isspace)
          (Re.Group "jobid" (Re.Plus Py.isdecimal))))
      (jobid_text ws1 ws2 ds rest) g (fun _ m => Some m)
    = Some (<["jobid" := ds]> g').
Proof.
  destruct Hws1 as [Hn1 Ha1], Hws2 as [Hn2 Ha2], Hds as [Hn3 Ha3].
  eexists. unfold jobid_text. cbn [Re.run].
  rewrite startswith_app, drop_app_string.
  apply plus_greedy; [done..|].
  rewrite startswith_app, drop_app_string.
  apply plus_greedy; [done..| |].
  { eapply starts_in_app; [done..|]. apply decimal_not_space. }
  apply plus_greedy; [done..|].
  by rewrite take_app_string.
Qed.

(** A line that starts with [jobid], whitespace, an equals sign,
    whitespace and digits, and holds no colon, is matched, and the digits
    are its job id. *)
Lemma plain_line_matched :
  Py.contains ":" (jobid_text ws1 ws2 ds rest) = false ->
  exists m,
    Re.match_ _TOMATO_SUBMITTED_REGEXP (jobid_text ws1 ws2 ds rest) = Some m
    /\ Re.group m "jobid" = Some ds.
Proof.
  intros Hcolon.
  destruct (jobid_text_matched ∅) as [g' Hg'].
  exists (<["jobid" := ds]> g'). split; [|apply lookup_insert_eq].
  unfold Re.match_, _TOMATO_SUBMITTED_REGEXP.
  cbn [Re.run] in *. rewrite star_fail; [exact Hg'|].
  intros w s' Hs. by rewrite (contains_suffix_false ":" w s') by by rewrite <- Hs.
Qed.

(** So is a line in which [jobid] comes after some text, a colon and
    optional whitespace, when no colon comes later. *)
Lemma prefixed_line_matched pfx ws0 :
  all_chars Re.dot pfx = true ->
  all_chars Py.isspace ws0 = true ->
  Py.contains ":" (ws0 +:+ (jobid_text ws1 ws2 ds rest)) = false ->
  exists m,
    Re.match_ _TOMATO_SUBMITTED_REGEXP (pfx +:+ ":" +:+ ws0 +:+ (jobid_text ws1 ws2 ds rest))
    = Some m
    /\ Re.group m "jobid" = Some ds.
Proof.
  intros Hpfx Hws0 Hcolon.
  set (g1 := <["1" := pfx +:+ ":" +:+ ws0]> (∅ : Re.groups)).
  destruct (jobid_text_matched g1) as [g' Hg'].
  exists (<["jobid" := ds]> g'). split; [|apply lookup_insert_eq].
  unfold Re.match_, _TOMATO_SUBMITTED_REGEXP.
  cbn [Re.run] in *.
  rewrite (star_backtrack _ pfx (":" +:+ ws0 +:+ (jobid_text ws1 ws2 ds rest)) _
             (<["jobid" := ds]> g')); [done|done| |].
  - rewrite startswith_app, drop_app_string.
    apply star_greedy; [done|reflexivity|].
    replace (Py.take _ _) with (pfx +:+ ":" +:+ ws0); [exact Hg'|].
    symmetry.
    replace (pfx +:+ ":" +:+ ws0 +:+ (jobid_text ws1 ws2 ds rest))
      with ((pfx +:+ ":" +:+ ws0) +:+ (jobid_text ws1 ws2 ds rest))
      by by rewrite !app_assoc_string.
    apply take_app_string.
  - intros w s' Hv Hw. destruct w as [|c w]; [done|].
    rewrite app_cons in Hv. injection Hv as _ Hv.
    change ("" +:+ ws0 +:+ (jobid_text ws1 ws2 ds rest)) with (ws0 +:+ (jobid_text ws1 ws2 ds rest)) in Hv.
    by rewrite (contains_suffix_false ":" w s') by by rewrite <- Hv.
Qed.

End Shapes.

Example plain_line_example :
  exists m,
    Re.match_ _TOMATO_SUBMITTED_REGEXP "jobid = 42" = Some m
    /\ Re.group m "jobid" = Some "42".
Proof. by apply (plain_line_matched " " " " "42" ""). Qed.

Example prefixed_line_example :
  exists m,
    Re.match_ _TOMATO_SUBMITTED_REGEXP "ketchup: jobid  =  42 (queued)" = Some m
    /\ Re.group m "jobid" = Some "42".
Proof.
  by apply (prefixed_line_matched "  " "  " "42" " (queued)")
    with (pfx := "ketchup") (ws0 := " ").
Qed.

(** ** Submission *)

Lemma scan_first_match lines stdout : forall pre line post m,
  lines = pre ++ line :: post ->
  Forall unmatched pre ->
  Re.match_ _TOMATO_SUBMITTED_REGEXP (Py.strip line) = Some m ->
  outcome (scan_submit_lines lines stdout) = inr (Re.group m "jobid").
Proof.
  intros pre. revert lines.
  induction pre as [|p pre IH]; intros lines line post m -> Hpre Hm.
  - cbn [scan_submit_lines app]. by rewrite Hm.
  - apply Forall_cons in Hpre as [Hp Hpre].
    cbn [scan_submit_lines app]. rewrite Hp. by eapply IH.
Qed.

Lemma scan_no_match lines stdout :
  Forall unmatched lines ->
  outcome (scan_submit_lines lines stdout) = inl no_jobid_found.
Proof.
  induction 1 as [|line lines Hl _ IH]; [reflexivity|].
  cbn [scan_submit_lines]. by rewrite Hl.
Qed.

Lemma scan_returns lines stdout r :
  outcome (scan_submit_lines lines stdout) = inr r ->
  exists line m,
    line ∈ lines
    /\ Re.match_ _TOMATO_SUBMITTED_REGEXP (Py.strip line) = Some m
    /\ r = Re.group m "jobid".
Proof.
  induction lines as [|line lines IH]; [discriminate|].
  cbn [scan_submit_lines].
  destruct (Re.match_ _ (Py.strip line)) as [m|] eqn:Hm.
  - intros [= <-]. exists line, m. split; [left|done].
  - intros (l & m & Hin & H)%IH. exists l, m. split; [by right|done].
Qed.

Lemma outcome_parse_submit retval stdout stderr :
  outcome (_parse_submit_output retval stdout stderr) =
  if bool_decide (retval ≠ 0%Z) then
    inl (SchedulerError
           ("Error during submission, " +:+ retval_and_streams retval stdout stderr))
  else outcome (scan_submit_lines (Py.split_on Py.LF stdout) stdout).
Proof.
  unfold _parse_submit_output. rewrite outcome_bind.
  destruct (bool_decide (retval ≠ 0%Z)); [reflexivity|].
  cbn [when]. rewrite outcome_ret, outcome_bind.
  by rewrite outcome_when_log.
Qed.

(** C4 (as amended). At exit code 0 the lines of stdout, cut at line feeds,
    are read in order, and the result is the group [jobid] of the first line
    whose stripped text the pattern matches from its start: a run of one
    or more decimal digits.  The pattern is the one of the source: it is
    case-sensitive, needs whitespace on both sides of the equals sign, and
    lets text come before [jobid] only when that text ends in a colon and
    optional whitespace. *)
Theorem submit_first_match_wins stdout stderr pre line post m :
  Py.split_on Py.LF stdout = pre ++ line :: post ->
  Forall unmatched pre ->
  Re.match_ _TOMATO_SUBMITTED_REGEXP (Py.strip line) = Some m ->
  exists ds,
    Re.group m "jobid" = Some ds
    /\ ds ≠ "" /\ all_chars Py.isdecimal ds = true
    /\ outcome (_parse_submit_output 0 stdout stderr) = inr (Some ds).
Proof.
  intros Hlines Hpre Hm.
  destruct (submitted_regexp_jobid _ _ Hm) as (ds & Hds & Hne & Hdig).
  exists ds. repeat split; try done.
  rewrite outcome_parse_submit.
  rewrite bool_decide_eq_false_2 by (intros H; by apply H).
  rewrite <- Hds. by eapply scan_first_match.
Qed.

Lemma submit_first_match_wins_witness :
  outcome (_parse_submit_output 0
             (text ["Welcome"; "Submitting: jobid = 42"; "jobid = 43"]) "")
  = inr (Some "42").
Proof.
  destruct (submit_first_match_wins
              (text ["Welcome"; "Submitting: jobid = 42"; "jobid = 43"]) ""
              ["Welcome"] "Submitting: jobid = 42" ["jobid = 43"; ""]
              {[ "1" := "Submitting: "; "2" := "jobid ="; "jobid" := "42" ]})
    as (ds & Hds & _ & _ & Hout).
  - vm_compute; reflexivity.
  - constructor; [vm_compute; reflexivity | constructor].
  - vm_compute; reflexivity.
  - vm_compute in Hds. injection Hds as <-. exact Hout.
Defined.

(** C4, the inputs of the claim: the line [Submitting... jobid = 42] has
    text before [jobid] that does not end in a colon, and no job id is
    found; nor is one found when [jobid] is in upper case or when the equals
    sign has no whitespace around it. *)
Lemma submit_example_not_matched :
  outcome (_parse_submit_output 0 (text ["Submitting... jobid = 42"]) "")
  = inl no_jobid_found
  /\ outcome (_parse_submit_output 0 (text ["JOBID = 42"]) "")
     = inl no_jobid_found
  /\ outcome (_parse_submit_output 0 (text ["jobid=42"]) "")
     = inl no_jobid_found.
Proof. repeat split; vm_compute; reflexivity. Qed.

(** C6. When the pattern matches no line of stdout, the parser raises the
    SchedulerError that reports a missing job id, also at exit code 0; and
    whenever the parser returns, on any input, it returns a job id that is
    present and not empty. *)
Theorem submit_without_jobid_fails :
  (forall stdout stderr,
     Forall unmatched (Py.split_on Py.LF stdout) ->
     outcome (_parse_submit_output 0 stdout stderr) =
     inl (SchedulerError
       "Error during submission, could not retrieve the jobID from ketchup output; see log for more info."))
  /\ (forall retval stdout stderr r,
     outcome (_parse_submit_output retval stdout stderr) = inr r ->
     exists ds, r = Some ds /\ ds ≠ "").
Proof.
  split.
  - intros stdout stderr Hno. rewrite outcome_parse_submit.
    rewrite bool_decide_eq_false_2 by (intros H; by apply H).
    by apply scan_no_match.
  - intros retval stdout stderr r. rewrite outcome_parse_submit.
    destruct (bool_decide (retval ≠ 0%Z)); [discriminate|].
    intros (line & m & _ & Hm & ->)%scan_returns.
    destruct (submitted_regexp_jobid _ _ Hm) as (ds & Hds & Hne & _).
    eauto.
Qed.

Lemma submit_without_jobid_fails_witness :
  outcome (_parse_submit_output 0 (text ["Payload accepted"; "done"]) "")
  = inl (SchedulerError
       "Error during submission, could not retrieve the jobID from ketchup output; see log for more info.")
  /\ exists ds, Some "42" = Some ds /\ ds ≠ "".
Proof.
  split.
  - apply (proj1 submit_without_jobid_fails).
    repeat (constructor; [vm_compute; reflexivity|]). constructor.
  - apply (proj2 submit_without_jobid_fails 0%Z (text ["jobid = 42"]) "").
    vm_compute; reflexivity.
Defined.

(** ** The command builders *)

Lemma replace_char_length old new s :
  (1 <= String.length new)%nat ->
  (String.length s <= String.length (Py.replace_char old new s))%nat.
Proof.
  intros Hnew. induction s as [|c s IH]; cbn; [lia|].
  rewrite length_app_string. destruct (Ascii.eqb c old); cbn; lia.
Qed.

(** Escaping adds at least the two enclosing quotes. *)
Lemma escape_for_bash_length s :
  (String.length s + 2 <= String.length (escape_for_bash s))%nat.
Proof.
  unfold escape_for_bash. rewrite !length_app_string.
  assert (1 <= String.length
                 (squote +:+ dquote +:+ squote +:+ dquote +:+ squote))%nat
    as Hnew by (vm_compute; lia).
  pose proof (replace_char_length "'"%char _ s Hnew) as H.
  change (String.length squote) with 1%nat. lia.
Qed.

Lemma escape_for_bash_changes s : escape_for_bash s ≠ s.
Proof.
  intros H. pose proof (escape_for_bash_length s) as Hl.
  rewrite H in Hl. lia.
Qed.

Lemma outcome_joblist_command jobs :
  outcome (_get_joblist_command jobs None) =
  if jobs_truthy jobs then
    if bool_decide (1 < jobs_len jobs)%nat then
      inl (FeatureNotAvailable "ketchup status supports only one job per time")
    else
      match jobs with
      | JobsStr s => inr ("ketchup -t status " +:+ escape_for_bash s)
      | JobsList l =>
          inr ("ketchup -t status "
               +:+ Py.join " " (escape_for_bash <$> l))
      | JobsNone => inr "ketchup -t status"
      end
  else inr "ketchup -t status queue".
Proof.
  unfold _get_joblist_command. cbn [user_truthy when].
  rewrite outcome_bind, outcome_ret, outcome_bind.
  destruct (jobs_truthy jobs); [|reflexivity].
  rewrite outcome_bind, outcome_when_raise.
  destruct (bool_decide (1 < jobs_len jobs)%nat); [reflexivity|].
  destruct jobs; reflexivity.
Qed.

(** C2. The kill command is built from the job id as it was given: for
    every job id the command ends in the raw text, which is never its
    shell-escaped form, while the command for detailed job information
    does escape the job id. *)
Theorem kill_command_not_escaped :
  outcome (_get_kill_command "7; reboot") = inr "ketchup -t cancel 7; reboot"
  /\ (forall jobid,
        outcome (_get_kill_command jobid) = inr ("ketchup -t cancel " +:+ jobid))
  /\ (forall jobid,
        outcome (_get_kill_command jobid)
        ≠ inr ("ketchup -t cancel " +:+ escape_for_bash jobid))
  /\ (forall job_id,
        _get_detailed_job_info_command job_id
        = "ketchup -t status " +:+ escape_for_bash job_id).
Proof.
  repeat split.
  intros jobid [= H]. change (jobid = escape_for_bash jobid) in H.
  symmetry in H. by apply escape_for_bash_changes in H.
Qed.

(** C7. With no user given, the list command fails with FeatureNotAvailable
    for every list of two or more job ids, is the full-queue command for an
    empty list and for no list at all, and is the status command of the
    escaped job id for a list of exactly one. *)
Theorem joblist_command_cases user :
  user_truthy user = false ->
  (forall l, (2 <= length l)%nat ->
     outcome (_get_joblist_command (JobsList l) user) =
     inl (FeatureNotAvailable "ketchup status supports only one job per time"))
  /\ outcome (_get_joblist_command (JobsList []) user)
     = inr "ketchup -t status queue"
  /\ outcome (_get_joblist_command JobsNone user)
     = inr "ketchup -t status queue"
  /\ (forall j,
     outcome (_get_joblist_command (JobsList [j]) user)
     = inr ("ketchup -t status " +:+ escape_for_bash j)).
Proof.
  intros Hu.
  assert (forall jobs, outcome (_get_joblist_command jobs user)
                       = outcome (_get_joblist_command jobs None)) as Huser.
  { intros jobs. unfold _get_joblist_command. by rewrite Hu. }
  repeat split; intros; rewrite Huser, outcome_joblist_command;
    try reflexivity.
  destruct l as [|a [|b l]]; cbn in *; try lia.
  by rewrite bool_decide_eq_true_2 by lia.
Qed.

Lemma joblist_command_cases_witness :
  outcome (_get_joblist_command (JobsList ["7"; "8"]) None)
  = inl (FeatureNotAvailable "ketchup status supports only one job per time")
  /\ outcome (_get_joblist_command (JobsList ["7"]) None)
     = inr "ketchup -t status '7'".
Proof.
  destruct (joblist_command_cases None eq_refl) as (Hmany & _ & _ & Hone).
  split; [apply Hmany; cbn; lia | apply Hone].
Defined.

(** C10. A job id given as a bare string of two characters is rejected:
    the length test counts its characters before the string case is
    reached.  Only a bare string of one character gives the status command
    of the escaped string. *)
Theorem joblist_command_bare_string :
  outcome (_get_joblist_command (JobsStr "12") None)
  = inl (FeatureNotAvailable "ketchup status supports only one job per time")
  /\ outcome (_get_joblist_command (JobsStr "7") None)
     = inr "ketchup -t status '7'"
  /\ (forall s, (2 <= String.length s)%nat ->
      outcome (_get_joblist_command (JobsStr s) None)
      = inl (FeatureNotAvailable
               "ketchup status supports only one job per time")).
Proof.
  repeat split.
  intros s Hs. rewrite outcome_joblist_command.
  destruct s as [|a [|b s]]; cbn in *; try lia.
  by rewrite bool_decide_eq_true_2 by lia.
Qed.

(** ** Kill *)

(** C8. For every exit code other than 0 the kill parser returns false, and
    for exit code 0 it returns true, whatever stdout and stderr hold; in
    neither case is an exception raised. *)
Theorem kill_output_is_boolean retval stdout stderr :
  (retval ≠ 0%Z ->
     outcome (_parse_kill_output retval stdout stderr) = inr false)
  /\ (retval = 0%Z ->
     outcome (_parse_kill_output retval stdout stderr) = inr true).
Proof.
  unfold _parse_kill_output. split; intros H.
  - rewrite bool_decide_eq_true_2 by done. reflexivity.
  - rewrite bool_decide_eq_false_2 by (intros Hn; by apply Hn).
    rewrite outcome_bind, outcome_when_log, outcome_bind, outcome_when_log.
    reflexivity.
Qed.

Example kill_output_logged :
  logged (_parse_kill_output 0 "cancelled" "")
  = [LogRecord module_logger WARNING
       "in _parse_kill_output there was some text in stdout: cancelled"]
  /\ logged (_parse_kill_output 0 "" "") = []
  /\ logged (_parse_kill_output 2 "" "no such job")
     = [LogRecord module_logger ERROR
          "Error in _parse_kill_output: retval=2; stdout=; stderr=no such job"].
Proof. repeat split; vm_compute; reflexivity. Qed.

Lemma kill_output_is_boolean_witness :
  outcome (_parse_kill_output 3 "some output" "some error") = inr false
  /\ outcome (_parse_kill_output 0 "some output" "some error") = inr true.
Proof.
  split.
  - apply (proj1 (kill_output_is_boolean 3 "some output" "some error")). lia.
  - apply (proj2 (kill_output_is_boolean 0 "some output" "some error")).
    reflexivity.
Defined.

(** * Further properties of the plugin *)

(** ** What a computation logs *)

Lemma logged_bind {A B} (m : M A) (f : A -> M B) :
  logged (m ≫= f) =
  logged m ++ match outcome m with
              | inl _ => []
              | inr a => logged (f a)
              end.
Proof.
  destruct m as [l [e|a]]; cbn; [by rewrite app_nil_r|].
  destruct (f a) as [l' r]; reflexivity.
Qed.

Lemma logged_ret {A} (a : A) : logged (mret a) = [].
Proof. reflexivity. Qed.

(** [strip] leaves nothing exactly when the text is blank. *)
Lemma lstrip_blank s : all_chars Py.isspace s = true -> Py.lstrip s = "".
Proof.
  induction s as [|c s IH]; [done|]. cbn.
  intros [Hc Hs]%andb_true_iff. rewrite Hc. by apply IH.
Qed.

Lemma lstrip_starts s : starts_in Py.isspace (Py.lstrip s) = false.
Proof.
  induction s as [|c s IH]; [done|]. cbn.
  destruct (Py.isspace c) eqn:Hc; [done|]. cbn. exact Hc.
Qed.

Lemma lstrip_empty s : Py.lstrip s = "" -> all_chars Py.isspace s = true.
Proof.
  induction s as [|c s IH]; [done|]. cbn.
  destruct (Py.isspace c); [exact IH|discriminate].
Qed.

Lemma rstrip_empty s : Py.rstrip s = "" -> all_chars Py.isspace s = true.
Proof.
  induction s as [|c s IH]; [done|]. cbn.
  destruct (Py.rstrip s) eqn:Hr; [|discriminate].
  destruct (Py.isspace c); [|discriminate]. intros _. by apply IH.
Qed.

Lemma strip_blank s :
  Py.truthy (Py.strip s) = false <-> all_chars Py.isspace s = true.
Proof.
  unfold Py.strip. split.
  - intros H. assert (Py.rstrip (Py.lstrip s) = "") as Hr.
    { destruct (Py.rstrip (Py.lstrip s)); [done|discriminate]. }
    apply rstrip_empty in Hr. apply lstrip_empty.
    pose proof (lstrip_starts s) as Hs.
    destruct (Py.lstrip s) as [|c t]; [done|].
    cbn in Hr, Hs. by rewrite Hs in Hr.
  - intros H. by rewrite lstrip_blank.
Qed.

(** ** The job list: which inputs are parsed, and into what *)

Lemma state_of_token_outcome job this_job_id token :
  job !! 1%nat = Some token ->
  outcome (job_state_of job this_job_id) = inr (state_of_token token).
Proof.
  intros Hj. unfold state_of_token.
  destruct (_MAP_STATUS_TOMATO !! token) as [st|] eqn:Hm.
  - by eapply job_state_of_known.
  - by eapply job_state_of_unknown.
Qed.

Lemma parse_job_row_matches job info :
  outcome (parse_job job) = inr info -> well_formed_row job /\ row_matches job info.
Proof.
  unfold parse_job, well_formed_row, row_matches.
  rewrite outcome_bind, outcome_list_item.
  destruct job as [|a [|b job]]; cbn [lookup list_lookup]; [discriminate| |].
  - rewrite outcome_bind, job_state_of_short by done. discriminate.
  - rewrite outcome_bind, (state_of_token_outcome _ _ b) by done.
    rewrite outcome_bind.
    destruct job as [|c [|d job]]; cbn; [| |discriminate];
      intros [= <-]; cbn; auto.
Qed.

Lemma parse_job_short job :
  (length job < 2)%nat ->
  outcome (parse_job job) = inl (IndexError "list index out of range").
Proof.
  intros Hlen. unfold parse_job. rewrite outcome_bind, outcome_list_item.
  destruct job as [|a [|b job]]; cbn in Hlen; try lia; [done|].
  cbn [lookup list_lookup]. by rewrite outcome_bind, job_state_of_short.
Qed.

Lemma parse_jobs_all_rows rows : forall job_list jobs,
  outcome (parse_jobs rows job_list) = inr jobs ->
  exists new, jobs = job_list ++ new /\ Forall2 row_matches rows new
              /\ Forall well_formed_row rows.
Proof.
  induction rows as [|job rows IH]; intros job_list jobs.
  - cbn. intros [= <-]. exists []. by rewrite app_nil_r.
  - cbn. rewrite outcome_bind.
    destruct (outcome (parse_job job)) as [e|info] eqn:Hjob; [discriminate|].
    intros (new & -> & Hnew & Hwf)%IH.
    apply parse_job_row_matches in Hjob as [Hw Hm].
    exists (info :: new). rewrite <- app_assoc.
    split; [done|]. split; by constructor.
Qed.

Lemma parse_jobs_well_formed rows : forall job_list,
  Forall well_formed_row rows ->
  exists jobs, outcome (parse_jobs rows job_list) = inr jobs.
Proof.
  induction rows as [|job rows IH]; intros job_list Hwf; [by eexists|].
  apply Forall_cons in Hwf as [Hjob Hwf].
  destruct (parse_job_two_or_three job Hjob) as [info Hinfo].
  cbn. rewrite outcome_bind, Hinfo. by apply IH.
Qed.

(** X1. At exit code 0 the parser returns exactly when every kept line of
    stdout has two or three tokens; it then returns one record per kept
    line, in order, whose job id is the first token, whose state is the
    one the table gives to the second token (UNDETERMINED when the table
    has none), whose pipeline is the third token or none, and whose raw
    data are the tokens. *)
Theorem joblist_returns_iff_well_formed stdout stderr :
  ((exists jobs, outcome (_parse_joblist_output 0 stdout stderr) = inr jobs)
   <-> Forall well_formed_row (jobdata_raw stdout))
  /\ (forall jobs,
        outcome (_parse_joblist_output 0 stdout stderr) = inr jobs ->
        Forall2 row_matches (jobdata_raw stdout) jobs).
Proof.
  rewrite outcome_parse_joblist.
  rewrite bool_decide_eq_false_2 by (intros H; by apply H).
  split; [split|].
  - intros [jobs (new & _ & _ & Hwf)%parse_jobs_all_rows]. exact Hwf.
  - apply parse_jobs_well_formed.
  - intros jobs (new & -> & Hnew & _)%parse_jobs_all_rows. exact Hnew.
Qed.

Lemma joblist_returns_iff_well_formed_witness :
  Forall2 row_matches [["7"; "r"; "pipelineA"]; ["8"; "paused"]]
    [ mkJobInfo "7" RUNNING (Some "pipelineA") ["7"; "r"; "pipelineA"];
      mkJobInfo "8" UNDETERMINED None ["8"; "paused"] ].
Proof.
  apply (proj2 (joblist_returns_iff_well_formed
                  (text ["jobid status"; "7 r pipelineA"; ""; "8 paused"]) "")).
  vm_compute; reflexivity.
Defined.

(** X2. At exit code 0, when the kept lines of stdout have two or three
    tokens each up to a first line of fewer than two tokens (one token, or
    whitespace only), the parser raises IndexError. *)
Theorem joblist_short_row_IndexError stdout stderr pre job post :
  jobdata_raw stdout = pre ++ job :: post ->
  Forall well_formed_row pre ->
  (length job < 2)%nat ->
  outcome (_parse_joblist_output 0 stdout stderr)
  = inl (IndexError "list index out of range").
Proof.
  intros Hrows Hpre Hjob.
  rewrite outcome_parse_joblist.
  rewrite bool_decide_eq_false_2 by (intros H; by apply H).
  eapply parse_jobs_stops; [exact Hrows| |by apply parse_job_short].
  eapply Forall_impl; [exact Hpre|]. apply parse_job_two_or_three.
Qed.

Lemma joblist_short_row_IndexError_witness :
  outcome (_parse_joblist_output 0 (text ["7 r pipelineA"; "   "; "8 c"]) "")
  = inl (IndexError "list index out of range").
Proof.
  apply (joblist_short_row_IndexError _ _
           [["7"; "r"; "pipelineA"]] [] [["8"; "c"]]).
  - vm_compute; reflexivity.
  - constructor; [right; reflexivity | constructor].
  - cbn; lia.
Defined.

(** ** The job list: what is logged *)

Lemma M_bind_ret {A B} (a : A) (f : A -> M B) : mret a ≫= f = f a.
Proof. cbn. by destruct (f a). Qed.

Lemma job_state_of_eq job this_job_id token :
  job !! 1%nat = Some token ->
  job_state_of job this_job_id =
  match _MAP_STATUS_TOMATO !! token with
  | Some st => ([], inr st)
  | None =>
      ([LogRecord self_logger WARNING
          ("Unrecognized job_state '" +:+ token +:+ "' for job id "
           +:+ this_job_id)], inr UNDETERMINED)
  end.
Proof.
  intros Hj. unfold job_state_of, list_item. rewrite Hj, !M_bind_ret.
  unfold dict_item. by destruct (_MAP_STATUS_TOMATO !! token).
Qed.

Lemma logged_parse_job job :
  well_formed_row job -> logged (parse_job job) = unknown_state_warning job.
Proof.
  intros Hwf. unfold well_formed_row in Hwf.
  destruct job as [|a [|b [|c [|d job]]]]; cbn in Hwf; try lia.
  - unfold parse_job, unknown_state_warning, list_item.
    cbn [lookup list_lookup]. rewrite M_bind_ret.
    rewrite (job_state_of_eq _ _ b) by done.
    by destruct (_MAP_STATUS_TOMATO !! b).
  - unfold parse_job, unknown_state_warning, list_item.
    cbn [lookup list_lookup]. rewrite M_bind_ret.
    rewrite (job_state_of_eq _ _ b) by done.
    by destruct (_MAP_STATUS_TOMATO !! b).
Qed.

Lemma logged_parse_jobs rows : forall job_list,
  Forall well_formed_row rows ->
  logged (parse_jobs rows job_list) = concat (unknown_state_warning <$> rows).
Proof.
  induction rows as [|job rows IH]; intros job_list Hwf; [done|].
  apply Forall_cons in Hwf as [Hjob Hwf].
  destruct (parse_job_two_or_three job Hjob) as [info Hinfo].
  cbn [parse_jobs]. rewrite logged_bind, Hinfo, logged_parse_job by done.
  by rewrite IH.
Qed.

Lemma logged_parse_joblist stdout stderr :
  logged (_parse_joblist_output 0 stdout stderr)
  = joblist_stderr_warning stderr ++ logged (parse_jobs (jobdata_raw stdout) []).
Proof.
  unfold _parse_joblist_output, joblist_stderr_warning.
  rewrite bool_decide_eq_false_2 by (intros H; by apply H).
  cbn [when]. rewrite M_bind_ret, logged_bind.
  by destruct (Py.truthy (Py.strip stderr)).
Qed.

(** X3. At exit code 0 the text of stderr never changes the result of the
    job-list parser: a stderr that is not blank only puts one warning in
    front of the log, and a blank one (empty or whitespace only) puts
    none. *)
Theorem joblist_stderr_only_warns stdout stderr :
  outcome (_parse_joblist_output 0 stdout stderr)
  = outcome (_parse_joblist_output 0 stdout "")
  /\ logged (_parse_joblist_output 0 stdout stderr)
     = joblist_stderr_warning stderr
       ++ logged (_parse_joblist_output 0 stdout "")
  /\ (all_chars Py.isspace stderr = true <->
      joblist_stderr_warning stderr = []).
Proof.
  split; [by rewrite !outcome_parse_joblist|]. split.
  - by rewrite !logged_parse_joblist.
  - rewrite <- strip_blank. unfold joblist_stderr_warning.
    by destruct (Py.truthy (Py.strip stderr)).
Qed.

Lemma joblist_stderr_only_warns_witness :
  joblist_stderr_warning ("  " +:+ nl) = [].
Proof.
  apply (proj2 (proj2 (joblist_stderr_only_warns "" ("  " +:+ nl)))).
  vm_compute; reflexivity.
Defined.

(** X4. At exit code 0 and with a blank stderr, a job list whose kept
    lines all have two or three tokens logs exactly one warning for each
    line whose status token is not in the table, in the order of the
    lines, naming the token and the job id; lines with a known token log
    nothing. *)
Theorem joblist_warns_per_unknown_token stdout stderr :
  all_chars Py.isspace stderr = true ->
  Forall well_formed_row (jobdata_raw stdout) ->
  logged (_parse_joblist_output 0 stdout stderr)
  = concat (unknown_state_warning <$> jobdata_raw stdout).
Proof.
  intros Hblank Hwf. rewrite logged_parse_joblist, logged_parse_jobs by done.
  unfold joblist_stderr_warning.
  apply strip_blank in Hblank. by rewrite Hblank.
Qed.

Lemma joblist_warns_per_unknown_token_witness :
  logged (_parse_joblist_output 0
            (text ["7 r pipelineA"; "8 paused"; "9 lost p2"]) "")
  = [ LogRecord self_logger WARNING "Unrecognized job_state 'paused' for job id 8";
      LogRecord self_logger WARNING "Unrecognized job_state 'lost' for job id 9" ].
Proof.
  rewrite (joblist_warns_per_unknown_token
             (text ["7 r pipelineA"; "8 paused"; "9 lost p2"]) "").
  - vm_compute; reflexivity.
  - reflexivity.
  - vm_compute.
    repeat (constructor; [first [left; reflexivity | right; reflexivity]|]).
    constructor.
Defined.

(** ** Submission: the lines that are matched *)

Lemma startswith_inv p s :
  Py.startswith p s = true -> s = p +:+ Py.drop (String.length p) s.
Proof.
  revert s. induction p as [|a p IH]; intros s; [done|].
  destruct s as [|b s]; cbn; [discriminate|].
  intros [Hab Hps]%andb_true_iff. apply Ascii.eqb_eq in Hab as ->.
  rewrite app_cons. f_equal. by apply IH.
Qed.

(** Every text is a run of the class followed by a rest that does not
    start in the class. *)
Lemma span_class (p : ascii -> bool) s :
  exists w r, s = w +:+ r /\ all_chars p w = true /\ starts_in p r = false.
Proof.
  induction s as [|c s (w & r & -> & Hw & Hr)].
  - by exists "", "".
  - destruct (p c) eqn:Hc.
    + exists (String c w), r. cbn. by rewrite Hc, Hw.
    + exists "", (String c (w +:+ r)). by cbn.
Qed.

Lemma jobid_text_shape t g m :
  Re.run (Re.Seq
     (Re.Group "2"
        (Re.Seq (Re.Lit "jobid") (Re.Seq (Re.Plus Py.isspace) (Re.Lit "="))))
     (Re.Seq (Re.Plus Py.isspace)
        (Re.Group "jobid" (Re.Plus Py.isdecimal))))
    t g (fun _ m => Some m) = Some m ->
  exists ws1 ws2 ds rest,
    t = jobid_text ws1 ws2 ds rest
    /\ jobid_shape ws1 ws2 ds rest
    /\ Re.group m "jobid" = Some ds.
Proof.
  cbn [Re.run].
  destruct (Py.startswith "jobid" t) eqn:Hj; [|discriminate].
  apply startswith_inv in Hj. revert Hj.
  generalize (Py.drop (String.length "jobid") t). intros t1 ->.
  intros (ws1 & t2 & -> & Hn1 & Ha1 & H)%plus_inv.
  destruct (Py.startswith "=" t2) eqn:He; [|discriminate].
  apply startswith_inv in He. revert He H.
  generalize (Py.drop (String.length "=") t2). intros t3 -> H.
  apply plus_inv in H as (ws2 & t4 & -> & Hn2 & Ha2 & H).
  destruct t4 as [|c t4]; [discriminate|]. cbn [Re.plus] in H.
  destruct (Py.isdecimal c) eqn:Hc; [|discriminate].
  destruct (span_class Py.isdecimal t4) as (w & rest & -> & Hw & Hrest).
  erewrite star_greedy in H; [|done..|reflexivity].
  injection H as <-.
  exists ws1, ws2, (String c w), rest. split; [done|]. split.
  - repeat split; try done. cbn. by rewrite Hc, Hw.
  - unfold Re.group. rewrite lookup_insert_eq. f_equal.
    apply (take_app_string (String c w) rest).
Qed.

Lemma submitted_regexp_shape s m :
  Re.match_ _TOMATO_SUBMITTED_REGEXP s = Some m ->
  exists pre ws1 ws2 ds rest,
    s = pre +:+ jobid_text ws1 ws2 ds rest
    /\ jobid_prefix pre
    /\ jobid_shape ws1 ws2 ds rest
    /\ Re.group m "jobid" = Some ds.
Proof.
  unfold Re.match_, _TOMATO_SUBMITTED_REGEXP.
  match goal with
  | |- Re.run (Re.Seq _ ?tail) _ _ _ = _ -> _ => set (r2 := tail)
  end.
  cbn [Re.run].
  match goal with
  | |- match ?x with _ => _ end = _ -> _ => destruct x as [m'|] eqn:Hopt
  end.
  - intros [= ->].
    apply star_inv in Hopt as (pfx & s1 & -> & Hpfx & H).
    destruct (Py.startswith ":" s1) eqn:Hc; [|discriminate].
    apply startswith_inv in Hc. revert Hc H.
    generalize (Py.drop (String.length ":") s1). intros s2 -> H.
    apply star_inv in H as (ws0 & t & -> & Hws0 & H).
    apply jobid_text_shape in H as (ws1 & ws2 & ds & rest & -> & Hshape & Hg).
    exists (pfx +:+ ":" +:+ ws0), ws1, ws2, ds, rest.
    split; [by rewrite !app_assoc_string|].
    split; [right; by exists pfx, ws0|done].
  - intros (ws1 & ws2 & ds & rest & -> & Hshape & Hg)%jobid_text_shape.
    exists "", ws1, ws2, ds, rest. split; [done|]. split; [by left|done].
Qed.

Lemma startswith_app_l sub a b :
  Py.startswith sub a = true -> Py.startswith sub (a +:+ b) = true.
Proof.
  revert a. induction sub as [|x sub IH]; intros a; [done|].
  destruct a as [|y a]; cbn; [discriminate|].
  intros [Hxy Hs]%andb_true_iff. rewrite app_cons. cbn.
  by rewrite Hxy, IH.
Qed.

Lemma contains_app_l sub a b :
  Py.contains sub a = true -> Py.contains sub (a +:+ b) = true.
Proof.
  induction a as [|c a IH].
  - cbn. rewrite orb_false_r. intros H. destruct sub; [|discriminate].
    by destruct b.
  - cbn. intros [H|H]%orb_true_iff.
    + apply contains_startswith. by apply (startswith_app_l _ (String c a)).
    + rewrite app_cons. cbn. rewrite IH by done. apply orb_true_r.
Qed.

Lemma lstrip_suffix s : exists w, s = w +:+ Py.lstrip s.
Proof.
  induction s as [|c s [w IH]]; [by exists ""|]. cbn.
  destruct (Py.isspace c); [|by exists ""].
  exists (String c w). by rewrite app_cons, <- IH.
Qed.

Lemma rstrip_prefix s : exists w, s = Py.rstrip s +:+ w.
Proof.
  induction s as [|c s [w IH]]; [by exists ""|]. cbn.
  destruct (Py.rstrip s) as [|d r] eqn:Hr.
  - destruct (Py.isspace c).
    + by exists (String c s).
    + exists s. by rewrite app_cons.
  - exists w. by rewrite app_cons, <- IH.
Qed.

(** What [strip] leaves is a piece of the text. *)
Lemma contains_strip sub s :
  Py.contains sub (Py.strip s) = true -> Py.contains sub s = true.
Proof.
  unfold Py.strip. intros H.
  destruct (lstrip_suffix s) as [w Hw].
  destruct (rstrip_prefix (Py.lstrip s)) as [v Hv].
  rewrite Hw. apply contains_app_r. rewrite Hv. by apply contains_app_l.
Qed.

(** ** Submission: from stdout to the job id *)

Lemma logged_scan lines stdout :
  logged (scan_submit_lines lines stdout) =
  match outcome (scan_submit_lines lines stdout) with
  | inl _ => [submit_no_jobid_record stdout]
  | inr _ => []
  end.
Proof.
  induction lines as [|line lines IH]; [reflexivity|].
  cbn [scan_submit_lines].
  by destruct (Re.match_ _ (Py.strip line)).
Qed.

(** X5. At exit code 0, when no earlier line is matched and the stripped
    text of a line holds no colon and reads [jobid], whitespace, an equals
    sign, whitespace, then digits up to a character that is no digit, the
    job id returned is exactly those digits. *)
Theorem submit_plain_line stdout stderr pre line post ws1 ws2 ds rest :
  Py.split_on Py.LF stdout = pre ++ line :: post ->
  Forall unmatched pre ->
  Py.strip line = jobid_text ws1 ws2 ds rest ->
  jobid_shape ws1 ws2 ds rest ->
  Py.contains ":" (Py.strip line) = false ->
  outcome (_parse_submit_output 0 stdout stderr) = inr (Some ds).
Proof.
  intros Hlines Hpre Hline (H1 & H2 & H3 & H4) Hcolon.
  rewrite Hline in Hcolon.
  destruct (plain_line_matched ws1 ws2 ds rest H1 H2 H3 H4 Hcolon)
    as (m & Hm & Hg).
  rewrite outcome_parse_submit.
  rewrite bool_decide_eq_false_2 by (intros H; by apply H).
  rewrite <- Hg. eapply scan_first_match; [done..|]. by rewrite Hline.
Qed.

Lemma submit_plain_line_witness :
  outcome (_parse_submit_output 0
             (text ["Payload accepted"; "  jobid =  1042 (queued)"]) "")
  = inr (Some "1042").
Proof.
  apply (submit_plain_line _ _ ["Payload accepted"]
           "  jobid =  1042 (queued)" [""] " " "  " "1042" " (queued)").
  - vm_compute; reflexivity.
  - constructor; [vm_compute; reflexivity | constructor].
  - vm_compute; reflexivity.
  - repeat split; try discriminate; vm_compute; reflexivity.
  - vm_compute; reflexivity.
Defined.

(** X6. At exit code 0, when no earlier line is matched and the stripped
    text of a line is some text without line feed, a colon, optional
    whitespace and then [jobid = digits] as above, with no colon after
    that one, the job id returned is the digits after that last colon,
    whatever the text before it holds. *)
Theorem submit_prefixed_line
    stdout stderr pre line post pfx ws0 ws1 ws2 ds rest :
  Py.split_on Py.LF stdout = pre ++ line :: post ->
  Forall unmatched pre ->
  Py.strip line = pfx +:+ ":" +:+ ws0 +:+ jobid_text ws1 ws2 ds rest ->
  all_chars Re.dot pfx = true ->
  all_chars Py.isspace ws0 = true ->
  jobid_shape ws1 ws2 ds rest ->
  Py.contains ":" (ws0 +:+ jobid_text ws1 ws2 ds rest) = false ->
  outcome (_parse_submit_output 0 stdout stderr) = inr (Some ds).
Proof.
  intros Hlines Hpre Hline Hpfx Hws0 (H1 & H2 & H3 & H4) Hcolon.
  destruct (prefixed_line_matched ws1 ws2 ds rest H1 H2 H3 H4 pfx ws0
              Hpfx Hws0 Hcolon) as (m & Hm & Hg).
  rewrite outcome_parse_submit.
  rewrite bool_decide_eq_false_2 by (intros H; by apply H).
  rewrite <- Hg. eapply scan_first_match; [done..|]. by rewrite Hline.
Qed.

Lemma submit_prefixed_line_witness :
  outcome (_parse_submit_output 0
             (text ["old: jobid = 1 new: jobid = 23"]) "")
  = inr (Some "23").
Proof.
  apply (submit_prefixed_line _ _ [] "old: jobid = 1 new: jobid = 23" [""]
           "old: jobid = 1 new" " " " " " " "23" "").
  - vm_compute; reflexivity.
  - constructor.
  - vm_compute; reflexivity.
  - vm_compute; reflexivity.
  - vm_compute; reflexivity.
  - repeat split; try discriminate; vm_compute; reflexivity.
  - vm_compute; reflexivity.
Defined.

(** X7. Whenever the submit parser returns, the exit code was 0 and the
    job id is the run of digits of some line of stdout whose stripped text
    is, after nothing or after a text ending in a colon and optional
    whitespace, [jobid], whitespace, an equals sign, whitespace and those
    digits; the job id is never followed by a further digit of the line. *)
Theorem submit_returns_only_matched retval stdout stderr r :
  outcome (_parse_submit_output retval stdout stderr) = inr r ->
  retval = 0%Z
  /\ exists line pre ws1 ws2 ds rest,
       line ∈ Py.split_on Py.LF stdout
       /\ Py.strip line = pre +:+ jobid_text ws1 ws2 ds rest
       /\ jobid_prefix pre
       /\ jobid_shape ws1 ws2 ds rest
       /\ r = Some ds.
Proof.
  rewrite outcome_parse_submit.
  destruct (bool_decide (retval ≠ 0%Z)) eqn:Hret; [discriminate|].
  apply bool_decide_eq_false in Hret.
  intros (line & m & Hin & Hm & ->)%scan_returns.
  split; [by destruct (decide (retval = 0%Z))|].
  apply submitted_regexp_shape in Hm
    as (pre & ws1 & ws2 & ds & rest & Hs & Hpre & Hshape & Hg).
  by exists line, pre, ws1, ws2, ds, rest.
Qed.

Lemma submit_returns_only_matched_witness :
  exists line pre ws1 ws2 ds rest,
    line ∈ Py.split_on Py.LF (text ["Submitting: jobid = 42"])
    /\ Py.strip line = pre +:+ jobid_text ws1 ws2 ds rest
    /\ jobid_prefix pre
    /\ jobid_shape ws1 ws2 ds rest
    /\ Some "42" = Some ds.
Proof.
  apply (submit_returns_only_matched 0 (text ["Submitting: jobid = 42"]) "").
  vm_compute; reflexivity.
Defined.

(** X8. At exit code 0, a stdout none of whose lines holds the text
    [jobid] in lower case gives the error of the missing job id. *)
Theorem submit_needs_lowercase_jobid stdout stderr :
  Forall (fun line => Py.contains "jobid" line = false)
         (Py.split_on Py.LF stdout) ->
  outcome (_parse_submit_output 0 stdout stderr) = inl no_jobid_found.
Proof.
  intros Hno. rewrite outcome_parse_submit.
  rewrite bool_decide_eq_false_2 by (intros H; by apply H).
  apply scan_no_match. eapply Forall_impl; [exact Hno|].
  intros line Hline. unfold unmatched.
  destruct (Re.match_ _ (Py.strip line)) as [m|] eqn:Hm; [|done].
  apply submitted_regexp_shape in Hm
    as (pre & ws1 & ws2 & ds & rest & Hs & _).
  assert (Py.contains "jobid" (Py.strip line) = true) as Hc.
  { rewrite Hs. unfold jobid_text. apply contains_infix. }
  apply contains_strip in Hc. congruence.
Qed.

Lemma submit_needs_lowercase_jobid_witness :
  outcome (_parse_submit_output 0 (text ["JobID = 42"; "Jobid = 43"]) "")
  = inl no_jobid_found.
Proof.
  apply submit_needs_lowercase_jobid.
  repeat (constructor; [vm_compute; reflexivity|]). constructor.
Defined.

(** X9. At exit code 0 the text of stderr never changes the result of the
    submit parser; the log holds one warning when stderr is not blank,
    and then the whole stdout in one error record exactly when no job id
    was found. *)
Theorem submit_log stdout stderr :
  outcome (_parse_submit_output 0 stdout stderr)
  = outcome (_parse_submit_output 0 stdout "")
  /\ logged (_parse_submit_output 0 stdout stderr)
     = submit_stderr_warning stderr
       ++ match outcome (_parse_submit_output 0 stdout stderr) with
          | inl _ => [submit_no_jobid_record stdout]
          | inr _ => []
          end
  /\ (all_chars Py.isspace stderr = true <-> submit_stderr_warning stderr = []).
Proof.
  split; [by rewrite !outcome_parse_submit|]. split.
  - rewrite outcome_parse_submit.
    rewrite bool_decide_eq_false_2 by (intros H; by apply H).
    unfold _parse_submit_output, submit_stderr_warning.
    rewrite bool_decide_eq_false_2 by (intros H; by apply H).
    cbn [when]. rewrite M_bind_ret, logged_bind, logged_scan.
    by destruct (Py.truthy (Py.strip stderr)).
  - rewrite <- strip_blank. unfold submit_stderr_warning.
    by destruct (Py.truthy (Py.strip stderr)).
Qed.

Lemma submit_log_witness :
  submit_stderr_warning (nl +:+ " ") = [].
Proof.
  apply (proj2 (proj2 (submit_log "" (nl +:+ " ")))).
  vm_compute; reflexivity.
Defined.

(** ** Kill: what is logged *)

(** X10. A kill that exits with 0 logs a warning for a stderr that is not
    blank and then a warning for a stdout that is not blank, each carrying
    the stream as it is; it logs nothing exactly when both streams are
    blank.  A kill that exits with another code logs one error record and
    nothing else. *)
Theorem kill_output_log retval stdout stderr :
  (retval = 0%Z ->
     logged (_parse_kill_output retval stdout stderr)
     = (if Py.truthy (Py.strip stderr) then
          [LogRecord module_logger WARNING
             ("in _parse_kill_output there was some text in stderr: "
              +:+ stderr)]
        else [])
       ++ (if Py.truthy (Py.strip stdout) then
             [LogRecord module_logger WARNING
                ("in _parse_kill_output there was some text in stdout: "
                 +:+ stdout)]
           else [])
     /\ (logged (_parse_kill_output retval stdout stderr) = [] <->
         all_chars Py.isspace stdout = true
         /\ all_chars Py.isspace stderr = true))
  /\ (retval ≠ 0%Z ->
     logged (_parse_kill_output retval stdout stderr)
     = [LogRecord module_logger ERROR
          ("Error in _parse_kill_output: retval=" +:+ Py.str_of_int retval
           +:+ "; stdout=" +:+ stdout +:+ "; stderr=" +:+ stderr)]).
Proof.
  split.
  - intros ->. rewrite <- !strip_blank.
    unfold _parse_kill_output.
    rewrite bool_decide_eq_false_2 by (intros H; by apply H).
    destruct (Py.truthy (Py.strip stderr)), (Py.truthy (Py.strip stdout));
      cbn; (split; [reflexivity|]); split; try done; by intros [].
  - intros Hret. unfold _parse_kill_output.
    by rewrite bool_decide_eq_true_2.
Qed.

Lemma kill_output_log_witness :
  logged (_parse_kill_output 0 (" " +:+ nl) "") = []
  /\ logged (_parse_kill_output 1 "" "no such job")
     = [LogRecord module_logger ERROR
          "Error in _parse_kill_output: retval=1; stdout=; stderr=no such job"].
Proof.
  split.
  - apply (proj2 (proj1 (kill_output_log 0 (" " +:+ nl) "") eq_refl)).
    split; vm_compute; reflexivity.
  - apply (proj2 (kill_output_log 1 "" "no such job")). lia.
Defined.

(** ** The command builders: users, logs, and how they agree *)

(** X11. A user that is not empty makes the list command fail with
    FeatureNotAvailable before the jobs are looked at, whatever they are,
    and nothing is logged. *)
Theorem joblist_command_rejects_user jobs user :
  user_truthy user = true ->
  _get_joblist_command jobs user
  = ([], inl (FeatureNotAvailable "Cannot query by user")).
Proof.
  intros Hu. unfold _get_joblist_command. by rewrite Hu.
Qed.

Lemma joblist_command_rejects_user_witness :
  _get_joblist_command (JobsList ["7"]) (Some "alice")
  = ([], inl (FeatureNotAvailable "Cannot query by user")).
Proof. apply joblist_command_rejects_user. reflexivity. Defined.

Lemma joblist_command_eq jobs user :
  user_truthy user = false ->
  _get_joblist_command jobs user =
  if jobs_truthy jobs then
    if bool_decide (1 < jobs_len jobs)%nat then
      ([], inl (FeatureNotAvailable
                  "ketchup status supports only one job per time"))
    else
      let arg := match jobs with
                 | JobsStr s => [escape_for_bash s]
                 | JobsList l => [Py.join " " (escape_for_bash <$> l)]
                 | JobsNone => []
                 end in
      let comm := Py.join " " (["ketchup"; "-t"; "status"] ++ arg) in
      ([LogRecord module_logger DEBUG ("ketchup command: " +:+ comm)],
       inr comm)
  else
    ([LogRecord module_logger DEBUG
        "ketchup command: ketchup -t status queue"],
     inr "ketchup -t status queue").
Proof.
  intros Hu. unfold _get_joblist_command. rewrite Hu. cbn [when].
  rewrite M_bind_ret.
  destruct (jobs_truthy jobs); [|reflexivity].
  destruct (bool_decide (1 < jobs_len jobs)%nat); [reflexivity|].
  destruct jobs; reflexivity.
Qed.

(** X12. Whenever the list command is returned, it starts with
    [ketchup -t status ] and is logged once, at DEBUG, after the words
    [ketchup command: ]; whenever the builder raises, nothing is logged. *)
Theorem joblist_command_logged_once jobs user :
  (forall comm,
     outcome (_get_joblist_command jobs user) = inr comm ->
     Py.startswith "ketchup -t status " comm = true
     /\ logged (_get_joblist_command jobs user)
        = [LogRecord module_logger DEBUG ("ketchup command: " +:+ comm)])
  /\ (forall e,
     outcome (_get_joblist_command jobs user) = inl e ->
     logged (_get_joblist_command jobs user) = []).
Proof.
  destruct (user_truthy user) eqn:Hu.
  { rewrite joblist_command_rejects_user by done. by split. }
  rewrite joblist_command_eq by done.
  destruct (jobs_truthy jobs) eqn:Hj.
  - destruct (bool_decide (1 < jobs_len jobs)%nat); [by split|].
    destruct jobs as [|s|l]; [discriminate Hj| |];
      (split; [intros comm [= <-]; split; reflexivity | discriminate]).
  - split; [intros comm [= <-]; split; reflexivity | discriminate].
Qed.

Lemma joblist_command_logged_once_witness :
  Py.startswith "ketchup -t status " "ketchup -t status '7'" = true
  /\ logged (_get_joblist_command (JobsList ["7"]) None)
     = [LogRecord module_logger DEBUG "ketchup command: ketchup -t status '7'"].
Proof.
  apply (proj1 (joblist_command_logged_once (JobsList ["7"]) None)).
  reflexivity.
Defined.

(** X13. For every job id, the command for detailed job information is
    the very command that the list command gives for the list of that one
    job, and for the job id given as a bare string of one character. *)
Theorem detailed_info_is_single_job_list job_id user :
  user_truthy user = false ->
  outcome (_get_joblist_command (JobsList [job_id]) user)
  = inr (_get_detailed_job_info_command job_id)
  /\ (String.length job_id = 1%nat ->
      outcome (_get_joblist_command (JobsStr job_id) user)
      = inr (_get_detailed_job_info_command job_id)).
Proof.
  intros Hu. rewrite !joblist_command_eq by done. split; [reflexivity|].
  intros Hlen. destruct job_id as [|c [|d s]]; try discriminate.
  reflexivity.
Qed.

Lemma detailed_info_is_single_job_list_witness :
  outcome (_get_joblist_command (JobsList ["it's"]) None)
  = inr (_get_detailed_job_info_command "it's").
Proof.
  apply (proj1 (detailed_info_is_single_job_list "it's" None eq_refl)).
Defined.

(** ** The cycling analysis: runs of cycles below the threshold *)

Lemma groupby_runs l :
  Forall (fun kg : bool * list bool =>
            kg.2 ≠ [] /\ kg.2 = replicate (length kg.2) kg.1)
         (Analysis.groupby l)
  /\ concat (snd <$> Analysis.groupby l) = l.
Proof.
  induction l as [|x l [IHf IHc]]; [by split|].
  cbn [Analysis.groupby].
  destruct (Analysis.groupby l) as [|[k g] groups] eqn:E.
  - cbn in IHc. subst l. split; [|done]. by repeat constructor.
  - apply Forall_cons in IHf as [[Hne Hg] IHf]. cbn in Hne, Hg, IHc.
    destruct (Bool.eqb x k) eqn:Hx.
    + apply Bool.eqb_prop in Hx as ->. split.
      * constructor; [|done]. cbn. split; [done|]. by rewrite <- Hg.
      * cbn. by rewrite <- IHc.
    + split.
      * constructor; [by split|]. by constructor.
      * cbn. by rewrite <- IHc.
Qed.

(** A run is a piece of the list. *)
Lemma groupby_run_in_list l k g :
  (k, g) ∈ Analysis.groupby l ->
  g ≠ [] /\ exists pre post, l = pre ++ replicate (length g) k ++ post.
Proof.
  intros Hin. destruct (groupby_runs l) as [Hf Hc].
  rewrite Forall_forall in Hf. destruct (Hf _ Hin) as [Hne Hg].
  split; [done|].
  apply list_elem_of_split in Hin as (G1 & G2 & HG).
  exists (concat (snd <$> G1)), (concat (snd <$> G2)).
  rewrite <- Hc, HG, fmap_app, concat_app. cbn in *. by rewrite <- Hg.
Qed.

Lemma groupby_grows x l k g :
  (k, g) ∈ Analysis.groupby l ->
  exists g', (k, g') ∈ Analysis.groupby (x :: l) /\ length g <= length g'.
Proof.
  intros Hin. cbn [Analysis.groupby].
  destruct (Analysis.groupby l) as [|[k0 g0] groups]; [by apply elem_of_nil in Hin|].
  destruct (Bool.eqb x k0).
  - apply elem_of_cons in Hin as [[= -> ->]|Hin].
    + exists (x :: g0). split; [left|cbn; lia].
    + exists g. split; [by right|lia].
  - exists g. split; [by right|lia].
Qed.

Lemma groupby_leading_run n post :
  exists g groups,
    Analysis.groupby (replicate (S n) true ++ post) = (true, g) :: groups
    /\ S n <= length g.
Proof.
  induction n as [|n (g & groups & IH & Hlen)].
  - cbn [replicate app Analysis.groupby].
    destruct (Analysis.groupby post) as [|[[] g0] groups]; cbn.
    + exists [true], []. split; [done|cbn; lia].
    + exists (true :: g0), groups. split; [done|cbn; lia].
    + exists [true], ((false, g0) :: groups). split; [done|cbn; lia].
  - change (replicate (S (S n)) true ++ post)
      with (true :: (replicate (S n) true ++ post)).
    cbn [Analysis.groupby]. rewrite IH. cbn.
    exists (true :: g), groups. split; [done|cbn; lia].
Qed.

Lemma groupby_window n pre post :
  exists g,
    (true, g) ∈ Analysis.groupby (pre ++ replicate (S n) true ++ post)
    /\ S n <= length g.
Proof.
  induction pre as [|x pre (g & Hin & Hlen)].
  - destruct (groupby_leading_run n post) as (g & groups & Hg & Hlen).
    exists g. cbn [app]. rewrite Hg. split; [left|done].
  - destruct (groupby_grows x _ _ _ Hin) as (g' & Hin' & Hlen').
    exists g'. split; [done|lia].
Qed.

Lemma elem_of_below_groups n l :
  n ∈ Analysis.below_groups l <->
  exists g, (true, g) ∈ Analysis.groupby l /\ length g = n.
Proof.
  unfold Analysis.below_groups. rewrite list_elem_of_omap. split.
  - intros ([[] g] & Hin & H); cbn in H; [|discriminate].
    injection H as <-. by exists g.
  - intros (g & Hin & <-). by exists (true, g).
Qed.

(** The runs of true items are as long as the windows of true items. *)
Lemma below_groups_window n l :
  (exists g, g ∈ Analysis.below_groups l /\ S n <= g) <->
  exists pre post, l = pre ++ replicate (S n) true ++ post.
Proof.
  split.
  - intros (g & (grp & Hin & <-)%elem_of_below_groups & Hlen).
    apply groupby_run_in_list in Hin as (_ & pre & post & ->).
    exists pre, (replicate (length grp - S n) true ++ post).
    rewrite (app_assoc (replicate (S n) true)), <- replicate_add.
    by replace (S n + (length grp - S n)) with (length grp) by lia.
  - intros (pre & post & ->).
    destruct (groupby_window n pre post) as (g & Hin & Hlen).
    exists (length g). split; [|done].
    apply elem_of_below_groups. by exists g.
Qed.

Lemma below_groups_bound n l : n ∈ Analysis.below_groups l -> n <= length l.
Proof.
  intros (g & Hin & <-)%elem_of_below_groups.
  apply groupby_run_in_list in Hin as (_ & pre & post & ->).
  rewrite !length_app, length_replicate. lia.
Qed.

Lemma filter_none {A} (P : A -> Prop) `{!forall x, Decision (P x)} (l : list A) :
  Forall (fun x => ~ P x) l -> filter P l = [].
Proof.
  induction 1 as [|x l Hx _ IH]; [done|].
  rewrite filter_cons. by destruct (decide (P x)).
Qed.

Section CyclingFacts.
Context {num : Type} (mul div : num -> num -> num) (ltb : num -> num -> bool).

#[local] Existing Instance Analysis.Out_ret.
#[local] Existing Instance Analysis.Out_bind.
#[local] Abbreviation analyze := (Analysis.analyze_cycling_results mul div ltb).
#[local] Abbreviation alarm := (@Analysis.alarm num).
#[local] Abbreviation report_head := (Analysis.report_head div).
#[local] Abbreviation below := (Analysis.below mul ltb).
#[local] Abbreviation capacity_key := Analysis.capacity_key.

Lemma for_each_alarms (cc : Z) (groups : list nat) :
  Analysis.for_each groups (fun g =>
     if bool_decide (cc < Z.of_nat g)%Z
     then Analysis.print (alarm g) else mret tt)
  = (alarm <$> filter (fun g => (cc < Z.of_nat g)%Z) groups, inr tt).
Proof.
  induction groups as [|g groups IH]; [reflexivity|].
  cbn [Analysis.for_each]. rewrite IH, filter_cons.
  destruct (decide (cc < Z.of_nat g)%Z) as [H|H].
  - by rewrite bool_decide_eq_true_2.
  - by rewrite bool_decide_eq_false_2.
Qed.

Lemma analyze_eq data cc threshold discharge Qs0 Qs' :
  data !! capacity_key discharge = Some (Qs0 :: Qs') ->
  analyze data cc threshold discharge =
  (report_head (Qs0 :: Qs') Qs0
   ++ (if bool_decide (cc + 1 ≤ Z.of_nat (length (Qs0 :: Qs')))%Z then
         alarm <$> filter (fun g => (cc < Z.of_nat g)%Z)
                     (Analysis.below_groups (below threshold Qs0 <$> Qs0 :: Qs'))
       else []),
   inr data).
Proof.
  intros Hkey. unfold Analysis.analyze_cycling_results, Analysis.dict_get.
  assert ((if discharge then
             match data !! "Qd" with
             | Some x => mret x
             | None => ([], inl (KeyError "Qd"))
             end
           else
             match data !! "Qc" with
             | Some x => mret x
             | None => ([], inl (KeyError "Qc"))
             end) = (mret (Qs0 :: Qs') : Analysis.Out num _)) as ->.
  { unfold capacity_key in Hkey. destruct discharge; by rewrite Hkey. }
  cbn [mbind mret Analysis.Out_bind Analysis.Out_ret Analysis.print
       Analysis.first_item].
  destruct (bool_decide (cc + 1 ≤ Z.of_nat (length (Qs0 :: Qs')))%Z).
  - cbn zeta. rewrite for_each_alarms.
    unfold Analysis.report_head, Analysis.below. cbn [app].
    cbn [mbind mret Analysis.Out_bind Analysis.Out_ret].
    by rewrite app_nil_r.
  - reflexivity.
Qed.

(** X14. When the chosen array is not empty, the analysis returns [data]
    itself after printing the capacities, the relative capacities, the
    number of cycles, and then one alarm for each maximal run of cycles
    below the threshold that is longer than [consecutive_cycles], in
    order; the test on the number of cycles never hides an alarm. *)
Theorem analysis_alarms_for_long_runs data cc threshold discharge Qs0 Qs' :
  data !! capacity_key discharge = Some (Qs0 :: Qs') ->
  analyze data cc threshold discharge =
  (report_head (Qs0 :: Qs') Qs0
   ++ (alarm <$> filter (fun g => (cc < Z.of_nat g)%Z)
                   (Analysis.below_groups (below threshold Qs0 <$> Qs0 :: Qs'))),
   inr data).
Proof.
  intros Hkey. rewrite (analyze_eq _ _ _ _ _ _ Hkey).
  destruct (bool_decide (cc + 1 ≤ Z.of_nat (length (Qs0 :: Qs')))%Z) eqn:Hg;
    [done|].
  apply bool_decide_eq_false in Hg.
  rewrite filter_none; [done|].
  apply Forall_forall. intros g Hin%below_groups_bound.
  rewrite length_fmap in Hin. lia.
Qed.

(** X15. For a number of consecutive cycles that is not negative, an
    alarm is printed exactly when the array holds more than that number
    of cycles in a row, each with a capacity below the threshold times
    the first capacity. *)
Theorem analysis_alarm_iff_window data (cc : nat) threshold discharge Qs0 Qs' :
  data !! capacity_key discharge = Some (Qs0 :: Qs') ->
  (exists g, alarm g ∈ (analyze data (Z.of_nat cc) threshold discharge).1)
  <->
  (exists pre w post,
     Qs0 :: Qs' = pre ++ w ++ post
     /\ length w = S cc
     /\ Forall (fun q => below threshold Qs0 q = true) w).
Proof.
  intros Hkey. rewrite (analysis_alarms_for_long_runs _ _ _ _ _ _ Hkey).
  cbn [fst]. set (Qs := Qs0 :: Qs'). split.
  - intros (g & Hin). apply elem_of_app in Hin as [Hin|Hin].
    { unfold report_head in Hin.
      repeat (apply elem_of_cons in Hin as [Hin|Hin]; [discriminate Hin|]).
      by apply elem_of_nil in Hin. }
    apply list_elem_of_fmap in Hin as (g' & _ & Hin).
    apply list_elem_of_filter in Hin as [Hlt Hin].
    destruct (proj1 (below_groups_window cc (below threshold Qs0 <$> Qs)))
      as (pre & post & Hw); [exists g'; split; [done|lia]|].
    apply fmap_app_inv in Hw as (pre' & rest & _ & Hrest & HQs).
    symmetry in Hrest.
    apply fmap_app_inv in Hrest as (w & post' & Hwin & _ & ->).
    exists pre', w, post'. split; [done|]. split.
    + by rewrite <- (length_fmap (below threshold Qs0)), <- Hwin,
        length_replicate.
    + apply Forall_forall. intros q Hq.
      assert (below threshold Qs0 q ∈ replicate (S cc) true) as Hb.
      { rewrite Hwin. by apply list_elem_of_fmap_2. }
      by apply elem_of_replicate in Hb as [? _].
  - intros (pre & w & post & HQs & Hlen & Hall).
    destruct (proj2 (below_groups_window cc (below threshold Qs0 <$> Qs)))
      as (g & Hin & Hg).
    { exists (below threshold Qs0 <$> pre), (below threshold Qs0 <$> post).
      rewrite HQs, !fmap_app. do 2 f_equal. rewrite <- Hlen.
      clear -Hall. induction Hall as [|q w Hq _ IH]; [done|].
      cbn. by rewrite Hq, IH. }
    exists g. apply elem_of_app. right.
    apply list_elem_of_fmap_2, list_elem_of_filter. split; [lia|done].
Qed.

(** X16. The analysis reads [Qd] when [discharge] holds and [Qc]
    otherwise.  Without that key it raises KeyError and prints nothing;
    with an empty array it prints the capacities and raises IndexError;
    with an array that is not empty it returns [data] itself. *)
Theorem analysis_errors_and_result data cc threshold discharge :
  match data !! capacity_key discharge with
  | None =>
      analyze data cc threshold discharge
      = ([], inl (KeyError (capacity_key discharge)))
  | Some [] =>
      analyze data cc threshold discharge
      = ([Analysis.Capacities []],
         inl (IndexError "index 0 is out of bounds for axis 0 with size 0"))
  | Some (Qs0 :: Qs') =>
      (analyze data cc threshold discharge).2 = inr data
      /\ exists alarms,
           (analyze data cc threshold discharge).1
           = report_head (Qs0 :: Qs') Qs0 ++ alarms
  end.
Proof.
  destruct (data !! capacity_key discharge) as [[|Qs0 Qs']|] eqn:Hkey.
  - unfold Analysis.analyze_cycling_results, Analysis.dict_get.
    unfold capacity_key in Hkey. destruct discharge; by rewrite Hkey.
  - rewrite (analysis_alarms_for_long_runs _ _ _ _ _ _ Hkey).
    split; [done|]. by eexists.
  - unfold Analysis.analyze_cycling_results, Analysis.dict_get.
    unfold capacity_key in Hkey. destruct discharge; by rewrite Hkey.
Qed.

End CyclingFacts.

(** The analysis at rational capacities: seven cycles, of which the
    second to fourth and the last two are below 4/5 of the first. *)
Lemma analysis_alarms_for_long_runs_witness :
  (Analysis.analyze_cycling_results Qmul Qdiv Qltb
     {[ "Qd" := [frac 1 1; frac 3 4; frac 1 2; frac 1 2; frac 1 1; frac 1 2; frac 1 2] ]}
     2 (frac 4 5) true).1
  = [ Analysis.Capacities [frac 1 1; frac 3 4; frac 1 2; frac 1 2; frac 1 1; frac 1 2; frac 1 2];
      Analysis.RelativeCapacities
        ((fun q => Qdiv q (frac 1 1))
           <$> [frac 1 1; frac 3 4; frac 1 2; frac 1 2; frac 1 1; frac 1 2; frac 1 2]);
      Analysis.Line "Completed 7 cycles.";
      Analysis.Line "Below threshold for 3 cycles!" ].
Proof.
  rewrite (analysis_alarms_for_long_runs Qmul Qdiv Qltb _ 2 (frac 4 5) true
             (frac 1 1) [frac 3 4; frac 1 2; frac 1 2; frac 1 1; frac 1 2; frac 1 2]).
  - vm_compute; reflexivity.
  - vm_compute; reflexivity.
Defined.

Lemma analysis_alarm_iff_window_witness :
  exists g,
    Analysis.alarm g ∈
    (Analysis.analyze_cycling_results Qmul Qdiv Qltb
       {[ "Qc" := [frac 1 1; frac 3 4; frac 1 2; frac 1 2; frac 1 1] ]}
       2 (frac 4 5) false).1.
Proof.
  assert (({[ "Qc" := [frac 1 1; frac 3 4; frac 1 2; frac 1 2; frac 1 1] ]}
             : gmap string (list QArith_base.Q))
            !! Analysis.capacity_key false
          = Some [frac 1 1; frac 3 4; frac 1 2; frac 1 2; frac 1 1]) as Hkey
    by (vm_compute; reflexivity).
  apply (proj2 (analysis_alarm_iff_window Qmul Qdiv Qltb _ 2 (frac 4 5)
                  false _ _ Hkey)).
  exists [(frac 1 1)], [frac 3 4; frac 1 2; frac 1 2], [(frac 1 1)].
  split; [reflexivity|]. split; [reflexivity|].
  repeat (constructor; [vm_compute; reflexivity|]). constructor.
Defined.
